(** * SVG_ArtGrid: a shallow embedding of the generative block engine

    The development follows [SVG_ArtGrid.py] and [SVGArtGridV2.py].  The two
    programs share their colour policy, their block styles and their focal
    block; they differ in [main] and in the image-driven functions of V2.

    Python's mutable state is explicit: the process-wide generator of module
    [random], the heap of list objects (a palette is a list object that
    [get_two_colors] copies before it pops from the copy) and the drawing the
    blocks are added to.  A computation is a function from a state to a state
    and either a value or the exception that was raised; the state reached
    when an exception is raised is kept, as it is in Python.

    Scope.  [svgwrite] is an accumulator: it takes the primitives it is given
    and a group is recorded by the choices that determine its primitives
    (their coordinates are binary64 arithmetic on the origin and the size).
    Integers stay in the range of binary64, where Python's true division of
    an integer is defined.  [colorsys], [PIL] and [sklearn] are parameters.
    Brightness is computed on binary64 numbers as the code computes it. *)

From Stdlib Require Import ZArith Lia Floats Ascii String.
From stdpp Require Import base option list strings gmap pretty.

Local Open Scope Z_scope.

(** ** Exceptions and results *)

(** The built-in exceptions the modelled code can raise. *)
Inductive exn : Type :=
  | ValueError
  | IndexError
  | KeyError
  | ZeroDivisionError
  | OverflowError
  | OSError.

Inductive res (A : Type) : Type :=
  | Ok (a : A)
  | Raise (e : exn).
Arguments Ok {A} a.
Arguments Raise {A} e.

Global Instance exn_eq_dec : EqDecision exn.
Proof. solve_decision. Defined.

Global Instance res_ret : MRet res := @Ok.
Global Instance res_bind : MBind res := fun A B k r =>
  match r with
  | Ok a => k a
  | Raise e => Raise e
  end.

(** ** The pseudorandom source

    Module [random] keeps one hidden generator.  The code reaches it through
    [random.seed], [random.randint], [random.choice] and [random.random];
    the last three are built in CPython on [_randbelow n] (a draw in
    [0, n)) and on a 53-bit draw [k] returned as the float [k / 2^53].  The
    generator itself (the Mersenne Twister) is a parameter. *)
Class RandomSource : Type := {
  rng : Type;
  rng_seed : Z -> rng;
  randbelow : Z -> rng -> Z * rng;
  random53 : rng -> Z * rng;
  randbelow_range : forall n g, 0 < n -> 0 <= (randbelow n g).1 < n;
  random53_range : forall g, 0 <= (random53 g).1 < 2 ^ 53
}.

(** ** Drawing primitives

    A style function adds one group to the drawing.  The group's primitives
    are determined by the style, the sub-variant the function draws at
    random, the origin, the size and the two colours; a group is recorded by
    these. *)
Inductive shape : Type :=
  | Circle (inner : bool)
  | OppositeCircles (offset : list Z)
  | Cross (is_plus : bool)
  | HalfSquare (direction : string)
  | DiagonalSquare (is_top_left_to_bottom_right : bool)
  | QuarterCircle (corner : string)
  | Dots (num_dots : Z)
  | LetterBlock (character : string).

Record group : Type := Group {
  g_shape : shape;
  g_x : Z;
  g_y : Z;
  g_size : Z;
  g_foreground : string;
  g_background : string
}.

Inductive element : Type :=
  | BackgroundRect (width height : Z) (fill : string)
  | BlockGroup (g : group).

Inductive definition : Type :=
  | StyleDef (css : string)
  | MaskDef (id : string)
  | RadialGradientDef (id inner outer : string).

(** [svgwrite.Drawing]: the declared size, the definitions and the elements
    in the order they were added. *)
Record drawing : Type := Drawing {
  dwg_size : string * string;
  dwg_defs : list definition;
  dwg_elements : list element
}.

Global Instance shape_eq_dec : EqDecision shape.
Proof. solve_decision. Defined.
Global Instance group_eq_dec : EqDecision group.
Proof. solve_decision. Defined.
Global Instance element_eq_dec : EqDecision element.
Proof. solve_decision. Defined.
Global Instance definition_eq_dec : EqDecision definition.
Proof. solve_decision. Defined.
Global Instance drawing_eq_dec : EqDecision drawing.
Proof. solve_decision. Defined.

(** ** Strings and numbers *)

Definition chars (s : string) : list ascii := list_ascii_of_string s.

(** [s.lstrip('#')] *)
Fixpoint lstrip_hash (s : string) : string :=
  match s with
  | String "#" s' => lstrip_hash s'
  | _ => s
  end.

(** [s[i:i+2]]: a slice is cut short at the end of the string. *)
Definition slice2 (s : string) (i : nat) : string := substring i 2 s.

Definition hex_digit (c : ascii) : option Z :=
  let n := Z.of_N (N_of_ascii c) in
  if bool_decide (48 <= n <= 57) then Some (n - 48)
  else if bool_decide (97 <= n <= 102) then Some (n - 87)
  else if bool_decide (65 <= n <= 70) then Some (n - 55)
  else None.

Definition is_space (c : ascii) : bool :=
  let n := Z.of_N (N_of_ascii c) in
  bool_decide (n = 32 \/ 9 <= n <= 13).

(** Hexadecimal digits, single underscores allowed between two digits.
    [prev] tells that the previous character was a digit. *)
Fixpoint hex_digits (acc : Z) (prev : bool) (l : list ascii) : option Z :=
  match l with
  | [] => if prev then Some acc else None
  | c :: l' =>
      match hex_digit c with
      | Some d => hex_digits (16 * acc + d) true l'
      | None =>
          if Ascii.eqb c "_" then
            if prev then
              match l' with
              | [] => None
              | _ => hex_digits acc false l'
              end
            else None
          else None
      end
  end.

Fixpoint drop_spaces (l : list ascii) : list ascii :=
  match l with
  | c :: l' => if is_space c then drop_spaces l' else l
  | [] => []
  end.

(** [int(s, 16)] on ASCII text: surrounding white space, an optional sign,
    an optional [0x] prefix, then the digits; [ValueError] otherwise. *)
Definition int16 (s : string) : res Z :=
  let l := reverse (drop_spaces (reverse (drop_spaces (chars s)))) in
  let '(neg, l) :=
    match l with
    | "-"%char :: l' => (true, l')
    | "+"%char :: l' => (false, l')
    | _ => (false, l)
    end in
  let digits :=
    match l with
    | "0"%char :: "x"%char :: "_"%char :: l' => hex_digits 0 false l'
    | "0"%char :: "X"%char :: "_"%char :: l' => hex_digits 0 false l'
    | "0"%char :: "x"%char :: l' => hex_digits 0 false l'
    | "0"%char :: "X"%char :: l' => hex_digits 0 false l'
    | _ => hex_digits 0 false l
    end in
  match digits with
  | Some n => Ok (if neg then - n else n)
  | None => Raise ValueError
  end.

(** [s.split(',')] *)
Fixpoint split_comma_go (cur : string) (l : list ascii) : list string :=
  match l with
  | [] => [String.rev cur]
  | c :: l' =>
      if Ascii.eqb c "," then String.rev cur :: split_comma_go "" l'
      else split_comma_go (String c cur) l'
  end.
Definition split_comma (s : string) : list string :=
  split_comma_go "" (chars s).

Definition hex_char (d : Z) : ascii :=
  if bool_decide (d < 10) then ascii_of_N (Z.to_N (48 + d))
  else ascii_of_N (Z.to_N (87 + d)).

Fixpoint hex_pos (fuel : nat) (n : Z) (acc : string) : string :=
  match fuel with
  | O => acc
  | S fuel' =>
      let acc' := String (hex_char (n mod 16)) acc in
      if bool_decide (n < 16) then acc' else hex_pos fuel' (n / 16) acc'
  end.

(** [format(n, 'x')] for [0 <= n] *)
Definition hex_of_nonneg (n : Z) : string :=
  hex_pos (S (Z.to_nat (Z.log2 n))) n "".

Definition zero_pad (width : nat) (s : string) : string :=
  string_of_list_ascii (replicate (width - String.length s)%nat "0"%char) +:+ s.

(** [f"{n:02x}"]: the sign counts in the width. *)
Definition format_02x (n : Z) : string :=
  if bool_decide (n < 0) then "-" +:+ zero_pad 1 (hex_of_nonneg (- n))
  else zero_pad 2 (hex_of_nonneg n).

(** ** Binary64 numbers *)

(** [int(c)]: truncation towards zero. *)
Definition int_of_float (c : float) : res Z :=
  match Prim2SF c with
  | S754_zero _ => Ok 0
  | S754_finite s m e =>
      let a := if bool_decide (0 <= e) then Z.pos m * 2 ^ e
               else Z.pos m / 2 ^ (- e) in
      Ok (if s then - a else a)
  | S754_infinity _ => Raise OverflowError
  | S754_nan => Raise ValueError
  end.

(** A cluster centre: a row of [KMeans.cluster_centers_]. *)
Definition centroid : Type := float * float * float.

(** The float literals [0.299], [0.587] and [0.114]. *)
Definition luma_r : float := 0x1.322d0e5604189p-2%float.
Definition luma_g : float := 0x1.2c8b439581062p-1%float.
Definition luma_b : float := 0x1.d2f1a9fbe76c9p-4%float.

(** [0.299 * color[0] + 0.587 * color[1] + 0.114 * color[2]] *)
Definition brightness (color : centroid) : float :=
  let '(c0, c1, c2) := color in
  (luma_r * c0 + luma_g * c1 + luma_b * c2)%float.

(** [f"#{r:02x}{g:02x}{b:02x}"] with [r, g, b = [int(c) for c in color]] *)
Definition centroid_hex (color : centroid) : res string :=
  let '(c0, c1, c2) := color in
  r ← int_of_float c0 ;
  g ← int_of_float c1 ;
  b ← int_of_float c2 ;
  mret ("#" +:+ format_02x r +:+ format_02x g +:+ format_02x b).

Fixpoint hex_colors_of (colors : list centroid) : res (list string) :=
  match colors with
  | [] => mret []
  | color :: colors' =>
      h ← centroid_hex color ;
      hs ← hex_colors_of colors' ;
      mret (h :: hs)
  end.

(** [a < b] on tuples of a float and a string: the first components decide
    unless they are equal. *)
Definition tuple_lt (a b : float * string) : bool :=
  if PrimFloat.eqb a.1 b.1 then
    if String.eqb a.2 b.2 then false else String.ltb a.2 b.2
  else PrimFloat.ltb a.1 b.1.

(** [sorted]: a stable sort that compares with [<] only. *)
Fixpoint insert_sorted (x : float * string) (l : list (float * string))
    : list (float * string) :=
  match l with
  | [] => [x]
  | y :: l' => if tuple_lt x y then x :: l else y :: insert_sorted x l'
  end.
Definition sorted (l : list (float * string)) : list (float * string) :=
  foldl (fun acc x => insert_sorted x acc) [] l.

(** Neither infinite nor NaN, as every mean of pixel values is. *)
Definition finite (c : float) : Prop :=
  match Prim2SF c with
  | S754_zero _ | S754_finite _ _ _ => True
  | _ => False
  end.

Definition finite_centroid (c : centroid) : Prop :=
  finite c.1.1 /\ finite c.1.2 /\ finite c.2.

(** ** Libraries

    What the code takes from [colorsys], [PIL] and [sklearn].  The HLS
    arithmetic of [create_background_colors] (from the mixed colour to the
    two stops of the gradient) is binary64 arithmetic over [colorsys].  An
    image is opened, resized and cropped by [PIL]; [pixels_of_image] is the
    resize to 150x150, the conversion to RGB and the reshape of
    [extract_palette_from_image]; [pixels_of_region] is the crop, the resize
    to 50x50, the conversion and the reshape of [sample_image_region].
    [kmeans_centers] is [KMeans(n_clusters, random_state=42, n_init=10)]
    followed by [cluster_centers_]: with its random state fixed it is a
    function of the pixels. *)
Class Libraries : Type := {
  hls_stops : Z -> Z -> Z -> res (string * string);
  image : Type;
  image_resize : image -> Z -> Z -> res image;
  pixels : Type;
  pixels_of_image : image -> res pixels;
  pixels_of_region : image -> Z -> Z -> Z -> Z -> res pixels;
  kmeans_centers : pixels -> Z -> res (list centroid)
}.

(** ** Program state *)

(** A location names a list object. *)
Abbreviation loc := positive (only parsing).

Section Engine.
Context {RS : RandomSource} {LIB : Libraries}.

Record state : Type := State {
  st_rng : rng;
  st_heap : gmap loc (list string);
  st_dwg : drawing
}.

Definition M (A : Type) : Type := state -> state * res A.

Definition ret {A} (a : A) : M A := fun st => (st, Ok a).
Definition raise {A} (e : exn) : M A := fun st => (st, Raise e).
Definition bind {A B} (m : M A) (k : A -> M B) : M B :=
  fun st =>
    match m st with
    | (st', Ok a) => k a st'
    | (st', Raise e) => (st', Raise e)
    end.
Definition lift {A} (r : res A) : M A := fun st => (st, r).

Global Instance M_ret : MRet M := @ret.
Global Instance M_bind : MBind M := fun A B k m => bind m k.

(** [for i in range(n): body(i)] *)
Fixpoint for_upto (n : nat) (body : Z -> M unit) : M unit :=
  match n with
  | O => mret tt
  | S n' => for_upto n' body ;; body (Z.of_nat n')
  end.
Definition for_range (n : Z) (body : Z -> M unit) : M unit :=
  for_upto (Z.to_nat n) body.

(** *** Lists *)

(** [l[i]]: a negative index counts from the end. *)
Definition py_index {A} (l : list A) (i : Z) : option nat :=
  let n := Z.of_nat (length l) in
  if bool_decide (0 <= i < n) then Some (Z.to_nat i)
  else if bool_decide (- n <= i < 0) then Some (Z.to_nat (n + i))
  else None.

Definition getitem {A} (l : list A) (i : Z) : res A :=
  match py_index l i with
  | Some k => match l !! k with Some x => Ok x | None => Raise IndexError end
  | None => Raise IndexError
  end.

(** *** The heap of list objects

    A location that names no object does not occur in a run; reading one is
    a [KeyError] here. *)

Definition read (p : loc) : M (list string) := fun st =>
  match st_heap st !! p with
  | Some l => (st, Ok l)
  | None => (st, Raise KeyError)
  end.

Definition write (p : loc) (l : list string) : M unit := fun st =>
  (State (st_rng st) (<[p := l]> (st_heap st)) (st_dwg st), Ok tt).

Definition alloc (l : list string) : M loc := fun st =>
  let p := fresh (dom (st_heap st)) in
  (State (st_rng st) (<[p := l]> (st_heap st)) (st_dwg st), Ok p).

(** [list.copy]: a new list object with the same elements. *)
Definition list_copy (p : loc) : M loc :=
  l ← read p ; alloc l.

(** [len(p)] *)
Definition list_len (p : loc) : M Z :=
  l ← read p ; mret (Z.of_nat (length l)).

(** [p[i]] *)
Definition list_getitem (p : loc) (i : Z) : M string :=
  l ← read p ; lift (getitem l i).

(** [p.pop(i)]: removes the element at index [i] from the object itself. *)
Definition list_pop (p : loc) (i : Z) : M string :=
  l ← read p ;
  match py_index l i with
  | Some k =>
      match l !! k with
      | Some x => write p (delete k l) ;; mret x
      | None => raise IndexError
      end
  | None => raise IndexError
  end.

(** *** Module random *)

Definition with_rng {A} (f : rng -> A * rng) : M A := fun st =>
  let '(a, g) := f (st_rng st) in
  (State g (st_heap st) (st_dwg st), Ok a).

(** [random.seed(n)] *)
Definition random_seed (n : Z) : M unit := fun st =>
  (State (rng_seed n) (st_heap st) (st_dwg st), Ok tt).

(** [random.randint(a, b)] is [randrange(a, b + 1)], which raises
    [ValueError] on an empty range. *)
Definition randint (a b : Z) : M Z :=
  let width := b + 1 - a in
  if bool_decide (0 < width) then
    k ← with_rng (randbelow width) ; mret (a + k)
  else raise ValueError.

(** [random.choice(seq)] raises [IndexError] on an empty sequence. *)
Definition choice {A} (seq : list A) : M A :=
  match seq with
  | [] => raise IndexError
  | _ =>
      k ← with_rng (randbelow (Z.of_nat (length seq))) ;
      lift (getitem seq k)
  end.

(** [random.random() < p] for the float [p = num / 2^den]: the draw is
    [k / 2^53], and both sides are dyadic, so the comparison is exact. *)
Definition random_lt (num : Z) (den : Z) : M bool :=
  k ← with_rng random53 ;
  mret (bool_decide (k * 2 ^ den < num * 2 ^ 53)).

(** *** Colours *)

Definition rgb : Type := Z * Z * Z.

(** [tuple(int(color[i:i+2], 16) for i in (0, 2, 4))] *)
Definition hex_to_rgb (color : string) : res rgb :=
  r ← int16 (slice2 color 0) ;
  g ← int16 (slice2 color 2) ;
  b ← int16 (slice2 color 4) ;
  mret (r, g, b).

(** The 50% blend of [create_background_colors]: [(r1 + r2) // 2] on each
    channel. *)
Definition mix (c1 c2 : rgb) : rgb :=
  let '(r1, g1, b1) := c1 in
  let '(r2, g2, b2) := c2 in
  ((r1 + r2) `div` 2, (g1 + g2) `div` 2, (b1 + b2) `div` 2).

Record colors : Type := Colors {
  foreground : string;
  background : string
}.

(** [get_two_colors] (SVG_ArtGrid.py 102-114, SVGArtGridV2.py 224-236). *)
Definition get_two_colors (color_palette : loc) : M colors :=
  color_list ← list_copy color_palette ;
  n ← list_len color_list ;
  color_index ← randint 0 (n - 1) ;
  background ← list_getitem color_list color_index ;
  list_pop color_list color_index ;;
  rest ← read color_list ;
  foreground ← choice rest ;
  mret (Colors foreground background).

(** *** The drawing *)

(** [dwg.add(element)] *)
Definition dwg_add (e : element) : M unit := fun st =>
  let d := st_dwg st in
  (State (st_rng st) (st_heap st)
     (Drawing (dwg_size d) (dwg_defs d) (dwg_elements d ++ [e])), Ok tt).

(** [dwg.defs.add(definition)] *)
Definition defs_add (x : definition) : M unit := fun st =>
  let d := st_dwg st in
  (State (st_rng st) (st_heap st)
     (Drawing (dwg_size d) (dwg_defs d ++ [x]) (dwg_elements d)), Ok tt).

(** [svgwrite.Drawing(output, size=(f"{w}px", f"{h}px"), profile='full')] *)
Definition new_drawing (w h : Z) : M unit := fun st =>
  (State (st_rng st) (st_heap st)
     (Drawing (pretty w +:+ "px", pretty h +:+ "px") [] []), Ok tt).

Definition add_group (sh : shape) (x y square_size : Z)
    (fg bg : string) : M unit :=
  dwg_add (BlockGroup (Group sh x y square_size fg bg)).

(** *** Block styles (SVG_ArtGrid.py 116-373, SVGArtGridV2.py 238-495) *)

Definition draw_fn : Type := Z -> Z -> Z -> string -> string -> M unit.

(** The float literal [0.3] is the binary64 number [5404319552844595 / 2^54]. *)
Definition draw_circle : draw_fn := fun x y square_size fg bg =>
  inner ← random_lt 5404319552844595 54 ;
  add_group (Circle inner) x y square_size fg bg.

Definition draw_opposite_circles : draw_fn := fun x y square_size fg bg =>
  defs_add (MaskDef ("mask-" +:+ pretty x +:+ "-" +:+ pretty y)) ;;
  offset ← choice [ [0; 0; square_size; square_size];
                    [square_size; 0; 0; square_size] ] ;
  add_group (OppositeCircles offset) x y square_size fg bg.

(** The diagonal bars divide by the length of the diagonal, which is [0.0]
    for an empty square. *)
Definition draw_cross : draw_fn := fun x y square_size fg bg =>
  is_plus ← random_lt 1 1 ;
  (if is_plus then mret tt
   else if bool_decide (square_size = 0) then raise ZeroDivisionError
   else mret tt) ;;
  add_group (Cross is_plus) x y square_size fg bg.

Definition draw_half_square : draw_fn := fun x y square_size fg bg =>
  direction ← choice ["top"; "right"; "bottom"; "left"]%string ;
  add_group (HalfSquare direction) x y square_size fg bg.

Definition draw_diagonal_square : draw_fn := fun x y square_size fg bg =>
  is_top_left_to_bottom_right ← random_lt 1 1 ;
  add_group (DiagonalSquare is_top_left_to_bottom_right) x y square_size fg bg.

Definition draw_quarter_circle : draw_fn := fun x y square_size fg bg =>
  corner ← choice ["top-left"; "top-right"; "bottom-right"; "bottom-left"]%string ;
  add_group (QuarterCircle corner) x y square_size fg bg.

Definition draw_dots : draw_fn := fun x y square_size fg bg =>
  num_dots ← choice [4; 9; 16] ;
  add_group (Dots num_dots) x y square_size fg bg.

Definition characters : list string :=
  ["A"; "B"; "C"; "D"; "E"; "F"; "G"; "H"; "I"; "J"; "K"; "L"; "M";
   "N"; "O"; "P"; "Q"; "R"; "S"; "T"; "U"; "V"; "W"; "X"; "Y"; "Z";
   "0"; "1"; "2"; "3"; "4"; "5"; "6"; "7"; "8"; "9";
   "+"; "-"; "*"; "/"; "="; "#"; "@"; "&"; "%"; "$"]%string.

Definition draw_letter_block : draw_fn := fun x y square_size fg bg =>
  character ← choice characters ;
  add_group (LetterBlock character) x y square_size fg bg.

(** *** The style maps

    A dict from style name to style function, in insertion order. *)
Definition style_map_little : list (string * draw_fn) :=
  [ ("circle", draw_circle);
    ("opposite_circles", draw_opposite_circles);
    ("cross", draw_cross);
    ("half_square", draw_half_square);
    ("diagonal_square", draw_diagonal_square);
    ("quarter_circle", draw_quarter_circle);
    ("dots", draw_dots);
    ("letter_block", draw_letter_block) ]%string.

(** The map of [generate_big_block] has no entry for dots. *)
Definition style_map_big : list (string * draw_fn) :=
  [ ("circle", draw_circle);
    ("opposite_circles", draw_opposite_circles);
    ("cross", draw_cross);
    ("half_square", draw_half_square);
    ("diagonal_square", draw_diagonal_square);
    ("quarter_circle", draw_quarter_circle);
    ("letter_block", draw_letter_block) ]%string.

(** [list(style_map.keys())] *)
Definition keys (m : list (string * draw_fn)) : list string := m.*1.

(** [style in style_map] *)
Definition has_key (m : list (string * draw_fn)) (k : string) : bool :=
  bool_decide (k ∈ keys m).

(** [style_map[style_name]] *)
Definition style_lookup (m : list (string * draw_fn)) (k : string) : res draw_fn :=
  match list_find (fun kv => kv.1 = k) m with
  | Some (_, (_, f)) => Ok f
  | None => Raise KeyError
  end.

(** [available_styles.remove('dots')]: removes the first occurrence. *)
Fixpoint list_remove (x : string) (l : list string) : list string :=
  match l with
  | [] => []
  | y :: l' => if bool_decide (y = x) then l' else y :: list_remove x l'
  end.

(** The styles a little block chooses from. *)
Definition little_available_styles (block_styles : list string) : list string :=
  let available_styles :=
    filter (fun style => has_key style_map_little style = true) block_styles in
  match available_styles with
  | [] => keys style_map_little
  | _ => available_styles
  end.

(** The styles the big block chooses from. *)
Definition big_available_styles (block_styles : list string) : list string :=
  let available_styles :=
    filter (fun style => has_key style_map_big style = true ∧ style ≠ "dots"%string)
      block_styles in
  match available_styles with
  | [] =>
      let available_styles := keys style_map_big in
      if bool_decide ("dots"%string ∈ available_styles)
      then list_remove "dots" available_styles
      else available_styles
  | _ => available_styles
  end.

(** [generate_little_block] (SVG_ArtGrid.py 375-404). *)
Definition generate_little_block (i j square_size : Z) (color_palette : loc)
    (block_styles : list string) : M unit :=
  colors ← get_two_colors color_palette ;
  style_name ← choice (little_available_styles block_styles) ;
  style_func ← lift (style_lookup style_map_little style_name) ;
  let x_pos := i * square_size in
  let y_pos := j * square_size in
  style_func x_pos y_pos square_size (foreground colors) (background colors).

(** [generate_grid] (SVG_ArtGrid.py 406-410). *)
Definition generate_grid (num_rows num_cols square_size : Z)
    (color_palette : loc) (block_styles : list string) : M unit :=
  for_range num_rows (fun i =>
    for_range num_cols (fun j =>
      generate_little_block i j square_size color_palette block_styles)).

(** [generate_big_block] (SVG_ArtGrid.py 412-447, SVGArtGridV2.py 583-618). *)
Definition generate_big_block (num_rows num_cols square_size : Z)
    (color_palette : loc) (block_styles : list string) (multiplier : Z) : M unit :=
  colors ← get_two_colors color_palette ;
  let available_styles := big_available_styles block_styles in
  kx ← randint 0 (num_rows - multiplier) ;
  let x_pos := kx * square_size in
  ky ← randint 0 (num_cols - multiplier) ;
  let y_pos := ky * square_size in
  let big_square_size := multiplier * square_size in
  style_name ← choice available_styles ;
  style_func ← lift (style_lookup style_map_big style_name) ;
  style_func x_pos y_pos big_square_size (foreground colors) (background colors).

(** [create_background_colors] (SVG_ArtGrid.py 61-100): the inner and the
    outer stop of the background gradient. *)
Definition create_background_colors (color_palette : loc) : M (string * string) :=
  c0 ← list_getitem color_palette 0 ;
  let color1 := lstrip_hash c0 in
  c1 ← list_getitem color_palette 1 ;
  let color2 := lstrip_hash c1 in
  rgb1 ← lift (hex_to_rgb color1) ;
  rgb2 ← lift (hex_to_rgb color2) ;
  let '(r, g, b) := mix rgb1 rgb2 in
  lift (hls_stops r g b).

(** *** Image-driven colours (SVGArtGridV2.py) *)

(** [extract_palette_from_image] (84-123), from the opened image. *)
Definition extract_palette_from_image (img : image) (color_count : Z)
    : res (list string) :=
  px ← pixels_of_image img ;
  colors ← kmeans_centers px color_count ;
  hex_colors_of colors.

(** [sample_image_region] (125-181). *)
Definition sample_image_region (img : image) (x y width height : Z)
    (sample_count : Z) : res colors :=
  px ← pixels_of_region img x y width height ;
  colors ← kmeans_centers px sample_count ;
  hex_colors ← hex_colors_of colors ;
  let brightness := brightness <$> colors in
  let sorted_colors := (sorted (zip brightness hex_colors)).*2 in
  fg ← getitem sorted_colors 0 ;
  bg ← getitem sorted_colors (-1) ;
  mret (Colors fg bg).

(** *** The two programs *)

(** The parsed command line.  The image options exist in V2 only. *)
Record args : Type := Args {
  a_rows : option Z;
  a_cols : option Z;
  a_square_size : Z;
  a_seed : option Z;
  a_palette_index : option Z;
  a_big_block : bool;
  a_big_block_size : option Z;
  a_block_styles : option string;
  a_image : option string;
  a_mode : option string;
  a_color_count : Z
}.

(** What a run reads from outside: the catalogue [load_color_palettes]
    returns and the image [Image.open(args.image)] returns. *)
Record env : Type := Env {
  e_palettes : res (list (list string));
  e_image : res image
}.

Definition all_styles : list string :=
  ["circle"; "opposite_circles"; "cross"; "half_square"; "diagonal_square";
   "quarter_circle"; "dots"; "letter_block"]%string.

(** [args.block_styles.split(',') if args.block_styles else all_styles] *)
Definition block_styles_of (a : args) : list string :=
  match a_block_styles a with
  | Some s => if bool_decide (s = ""%string) then all_styles else split_comma s
  | None => all_styles
  end.

Definition default_to (o : option Z) (m : M Z) : M Z :=
  match o with
  | Some v => mret v
  | None => m
  end.

Definition seed_from (a : args) : M unit :=
  match a_seed a with
  | Some s => random_seed s
  | None => mret tt
  end.

(** [dwg.save()]: the document that is written. *)
Definition save : M drawing := fun st => (st, Ok (st_dwg st)).

(** The palette of the JSON catalogue (SVG_ArtGrid.py 462-465). *)
Definition stored_palette (a : args) (e : env) : M loc :=
  palettes ← lift (e_palettes e) ;
  palette_idx ← default_to (a_palette_index a)
                  (randint 0 (Z.of_nat (length palettes) - 1)) ;
  color_palette ← lift (getitem palettes palette_idx) ;
  alloc color_palette.

(** The drawing, its style sheet and its background (SVG_ArtGrid.py
    474-491). *)
Definition open_document (num_rows num_cols square_size : Z)
    (color_palette : loc) : M unit :=
  let svg_width := num_rows * square_size in
  let svg_height := num_cols * square_size in
  new_drawing svg_width svg_height ;;
  defs_add (StyleDef "svg * { shape-rendering: crispEdges; }") ;;
  bg_colors ← create_background_colors color_palette ;
  defs_add (RadialGradientDef "background_gradient" bg_colors.1 bg_colors.2) ;;
  dwg_add (BackgroundRect svg_width svg_height "url(#background_gradient)").

(** The focal block of [main]. *)
Definition add_big_block (a : args) (num_rows num_cols : Z)
    (color_palette : loc) : M unit :=
  big_block_size ← match a_big_block_size a with
                   | Some v => mret v
                   | None => choice [2; 3]
                   end ;
  generate_big_block num_rows num_cols (a_square_size a) color_palette
    (block_styles_of a) big_block_size.

(** [main] of SVG_ArtGrid.py (449-507). *)
Definition main_v1 (a : args) (e : env) : M drawing :=
  seed_from a ;;
  num_rows ← default_to (a_rows a) (randint 4 8) ;
  num_cols ← default_to (a_cols a) (randint 4 8) ;
  let square_size := a_square_size a in
  color_palette ← stored_palette a e ;
  let block_styles := block_styles_of a in
  open_document num_rows num_cols square_size color_palette ;;
  generate_grid num_rows num_cols square_size color_palette block_styles ;;
  (if a_big_block a then add_big_block a num_rows num_cols color_palette
   else mret tt) ;;
  save.

(** [args.image and args.mode == m] *)
Definition image_mode (a : args) (m : string) : bool :=
  match a_image a with
  | Some path =>
      bool_decide (path ≠ ""%string) && bool_decide (a_mode a = Some m)
  | None => false
  end.

(** [generate_composition_grid] (SVGArtGridV2.py 534-581). *)
Definition generate_composition_grid (e : env) (num_rows num_cols square_size : Z)
    (block_styles : list string) : M unit :=
  img ← lift (e_image e) ;
  img ← lift (image_resize img (num_rows * square_size) (num_cols * square_size)) ;
  for_range num_rows (fun i =>
    for_range num_cols (fun j =>
      let x_pos := i * square_size in
      let y_pos := j * square_size in
      colors ← lift (sample_image_region img x_pos y_pos square_size square_size 2) ;
      style_name ← choice (little_available_styles block_styles) ;
      style_func ← lift (style_lookup style_map_little style_name) ;
      style_func x_pos y_pos square_size (foreground colors) (background colors))).

(** [main] of SVGArtGridV2.py (620-689). *)
Definition main_v2 (a : args) (e : env) : M drawing :=
  seed_from a ;;
  num_rows ← default_to (a_rows a) (randint 8 16) ;
  num_cols ← default_to (a_cols a) (randint 8 16) ;
  let square_size := a_square_size a in
  color_palette ←
    (if image_mode a "palette" then
       img ← lift (e_image e) ;
       color_palette ← lift (extract_palette_from_image img (a_color_count a)) ;
       alloc color_palette
     else stored_palette a e) ;
  let block_styles := block_styles_of a in
  open_document num_rows num_cols square_size color_palette ;;
  (if image_mode a "composition" then
     generate_composition_grid e num_rows num_cols square_size block_styles
   else
     generate_grid num_rows num_cols square_size color_palette block_styles) ;;
  (if a_big_block a && negb (image_mode a "composition")
   then add_big_block a num_rows num_cols color_palette
   else mret tt) ;;
  save.

(** *** Characterisations used in the proofs *)

(** The style a group was drawn in: each style function creates the groups
    of one shape (and of one [class_]). *)
Definition shape_style (sh : shape) : string :=
  match sh with
  | Circle _ => "circle"
  | OppositeCircles _ => "opposite_circles"
  | Cross _ => "cross"
  | HalfSquare _ => "half_square"
  | DiagonalSquare _ => "diagonal_square"
  | QuarterCircle _ => "quarter_circle"
  | Dots _ => "dots"
  | LetterBlock _ => "letter_block"
  end.

(** What [get_two_colors] draws and returns, as a function of the elements
    of the palette and of the generator; [get_two_colors_run] shows that the
    code computes it. *)
Definition pick_two (l : list string) (g : rng) : rng * res colors :=
  match l with
  | [] => (g, Raise ValueError)
  | _ =>
      let '(k, g1) := randbelow (Z.of_nat (length l)) g in
      match l !! Z.to_nat k with
      | Some bg =>
          match delete (Z.to_nat k) l with
          | [] => (g1, Raise IndexError)
          | rest =>
              let '(j, g2) := randbelow (Z.of_nat (length rest)) g1 in
              match rest !! Z.to_nat j with
              | Some fg => (g2, Ok (Colors fg bg))
              | None => (g2, Raise IndexError)
              end
          end
      | None => (g1, Raise IndexError)
      end
  end.

(** What a style function does to a state: it keeps the heap and the
    declared size, and either adds one group of its style at the origin,
    size and colours it was given, or raises [ZeroDivisionError] on an empty
    square and adds nothing. *)
Definition draws (name : string) (f : draw_fn) : Prop :=
  forall x y s fg bg st,
  exists st' r,
    f x y s fg bg st = (st', r) /\
    st_heap st' = st_heap st /\
    dwg_size (st_dwg st') = dwg_size (st_dwg st) /\
    match r with
    | Ok _ =>
        exists sh, shape_style sh = name /\
          dwg_elements (st_dwg st') =
          dwg_elements (st_dwg st) ++ [BlockGroup (Group sh x y s fg bg)]
    | Raise e =>
        e = ZeroDivisionError /\ s = 0 /\
        dwg_elements (st_dwg st') = dwg_elements (st_dwg st)
    end.

(** Every element of the drawing after the call was there before, or is a
    group that satisfies [P]. *)
Definition new_groups (st st' : state) (P : group -> Prop) : Prop :=
  forall el, el ∈ dwg_elements (st_dwg st') ->
    el ∈ dwg_elements (st_dwg st) \/ exists g, el = BlockGroup g /\ P g.

(** A computation that leaves the declared size of the drawing alone. *)
Definition keeps_size {A} (m : M A) : Prop :=
  forall st, dwg_size (st_dwg (m st).1) = dwg_size (st_dwg st).

End Engine.

(** ** Reference instances

    A scripted generator: the state is the tape of the raw draws to come and
    the state of a linear congruential generator that takes over when the
    tape is exhausted; seeding empties the tape and sets that state.  A toy
    image library: an image is the list of its cluster centres.  They serve
    to run the programs on concrete inputs. *)

Definition lcg_next (x : Z) : Z :=
  (6364136223846793005 * x + 1442695040888963407) mod 2 ^ 64.

Definition tape_below (n : Z) (g : list Z * Z) : Z * (list Z * Z) :=
  match g with
  | (d :: tape, x) => (d mod n, (tape, x))
  | ([], x) => ((lcg_next x / 2 ^ 11) mod n, ([], lcg_next x))
  end.

Lemma tape_below_range n g : 0 < n -> 0 <= (tape_below n g).1 < n.
Proof.
  intros Hn. destruct g as [[|d tape] x]; simpl; apply Z.mod_pos_bound; lia.
Qed.

Lemma tape_53_range g : 0 <= (tape_below (2 ^ 53) g).1 < 2 ^ 53.
Proof. apply tape_below_range. lia. Qed.

Definition tape_random : RandomSource := {|
  rng := list Z * Z;
  rng_seed := fun s => ([], Z.abs s);
  randbelow := tape_below;
  random53 := tape_below (2 ^ 53);
  randbelow_range := tape_below_range;
  random53_range := tape_53_range
|}.

Definition toy_libraries : Libraries := {|
  hls_stops := fun r g b =>
    let c := ("#" +:+ format_02x r +:+ format_02x g +:+ format_02x b)%string in
    Ok (c, c);
  image := list centroid;
  image_resize := fun img _ _ => Ok img;
  pixels := list centroid;
  pixels_of_image := fun img => Ok img;
  pixels_of_region := fun img _ _ _ _ => Ok img;
  kmeans_centers := fun px k => Ok (take (Z.to_nat k) px)
|}.

Definition empty_drawing : drawing := Drawing (""%string, ""%string) [] [].

(** A state whose heap holds one list object, at location 1. *)
Definition tape_state (tape : list Z) (palette : list string)
    : @state tape_random :=
  @State tape_random (tape, 0) {[ 1%positive := palette ]} empty_drawing.

(** ** Proofs *)

(** *** Comparisons of binary64 numbers *)

Lemma SFcompare_swap (x y : spec_float) :
  SFcompare y x = option_map CompOpp (SFcompare x y).
Proof.
  destruct x as [sx|sx| |sx mx ex], y as [sy|sy| |sy my ey]; simpl;
    try reflexivity; try (destruct sx; reflexivity);
    try (destruct sy; reflexivity); try (destruct sx, sy; reflexivity).
  f_equal. rewrite (Z.compare_antisym ex ey).
  change (PosDef.Pos.compare_cont Eq my mx) with (Pos.compare my mx).
  change (PosDef.Pos.compare_cont Eq mx my) with (Pos.compare mx my).
  rewrite (Pos.compare_antisym mx my).
  destruct sx, sy, (ex ?= ey); simpl; try reflexivity;
    destruct (mx ?= my)%positive; reflexivity.
Qed.

Lemma float_ltb_asym (x y : float) :
  PrimFloat.ltb x y = true ->
  PrimFloat.ltb y x = false /\ PrimFloat.eqb y x = false.
Proof.
  rewrite !FloatAxioms.ltb_spec, FloatAxioms.eqb_spec. unfold SFltb, SFeqb.
  rewrite (SFcompare_swap (Prim2SF x) (Prim2SF y)).
  destruct (SFcompare (Prim2SF x) (Prim2SF y)) as [[]|]; simpl; done.
Qed.

Lemma float_eqb_not_ltb (x y : float) :
  PrimFloat.eqb x y = true ->
  PrimFloat.ltb x y = false /\ PrimFloat.ltb y x = false.
Proof.
  rewrite !FloatAxioms.ltb_spec, FloatAxioms.eqb_spec. unfold SFltb, SFeqb.
  rewrite (SFcompare_swap (Prim2SF x) (Prim2SF y)).
  destruct (SFcompare (Prim2SF x) (Prim2SF y)) as [[]|]; simpl; done.
Qed.

Lemma int_of_float_finite c : finite c -> exists n, int_of_float c = Ok n.
Proof.
  unfold finite, int_of_float. destruct (Prim2SF c); try done; eauto.
Qed.

Lemma centroid_hex_finite (c : centroid) :
  finite_centroid c -> exists h, centroid_hex c = Ok h.
Proof.
  destruct c as [[c0 c1] c2]. intros (H0 & H1 & H2). simpl in H0, H1, H2.
  destruct (int_of_float_finite c0 H0) as [r Hr].
  destruct (int_of_float_finite c1 H1) as [g Hg].
  destruct (int_of_float_finite c2 H2) as [b Hb].
  unfold centroid_hex. rewrite Hr, Hg, Hb. simpl. eauto.
Qed.


Section Proofs.
Context {RS : RandomSource} {LIB : Libraries}.

Lemma bind_run {A B} (m : M A) (k : A -> M B) st :
  (m ≫= k) st =
  match m st with
  | (st', Ok a) => k a st'
  | (st', Raise e) => (st', Raise e)
  end.
Proof. reflexivity. Qed.

Lemma getitem_in_range {A} (l : list A) (k : Z) :
  0 <= k < Z.of_nat (length l) ->
  exists x, l !! Z.to_nat k = Some x /\ getitem l k = Ok x /\ py_index l k = Some (Z.to_nat k).
Proof.
  intros Hk. unfold getitem, py_index.
  rewrite bool_decide_eq_true_2 by done.
  destruct (l !! Z.to_nat k) as [x|] eqn:E.
  - eauto.
  - apply lookup_ge_None in E. lia.
Qed.

Lemma with_rng_run {A} (f : rng -> A * rng) st :
  with_rng f st = (State (f (st_rng st)).2 (st_heap st) (st_dwg st), Ok (f (st_rng st)).1).
Proof. unfold with_rng. destruct (f (st_rng st)); reflexivity. Qed.

Lemma read_run p st l :
  st_heap st !! p = Some l -> read p st = (st, Ok l).
Proof. intros H. unfold read. rewrite H. reflexivity. Qed.

Lemma list_len_run p st l :
  st_heap st !! p = Some l -> list_len p st = (st, Ok (Z.of_nat (length l))).
Proof. intros H. unfold list_len. rewrite bind_run, (read_run _ _ _ H). reflexivity. Qed.

Lemma list_getitem_run p st l i :
  st_heap st !! p = Some l -> list_getitem p i st = (st, getitem l i).
Proof. intros H. unfold list_getitem. rewrite bind_run, (read_run _ _ _ H). reflexivity. Qed.

Lemma list_pop_run p st l k x :
  st_heap st !! p = Some l -> 0 <= k < Z.of_nat (length l) ->
  l !! Z.to_nat k = Some x ->
  list_pop p k st =
  (State (st_rng st) (<[p := delete (Z.to_nat k) l]> (st_heap st)) (st_dwg st), Ok x).
Proof.
  intros H Hk Hx. unfold list_pop. rewrite bind_run, (read_run _ _ _ H).
  unfold py_index. rewrite bool_decide_eq_true_2 by done. rewrite Hx.
  reflexivity.
Qed.

Lemma randint_run a b st :
  a <= b ->
  randint a b st =
  (State (randbelow (b + 1 - a) (st_rng st)).2 (st_heap st) (st_dwg st),
   Ok (a + (randbelow (b + 1 - a) (st_rng st)).1)).
Proof.
  intros H. unfold randint. rewrite bool_decide_eq_true_2 by lia.
  rewrite bind_run, with_rng_run. reflexivity.
Qed.

Lemma randint_empty a b st :
  b < a -> randint a b st = (st, Raise ValueError).
Proof.
  intros H. unfold randint. rewrite bool_decide_eq_false_2 by lia. reflexivity.
Qed.

Lemma choice_run {A} (seq : list A) st :
  seq <> [] ->
  let k := (randbelow (Z.of_nat (length seq)) (st_rng st)).1 in
  exists x, seq !! Z.to_nat k = Some x /\
    choice seq st =
    (State (randbelow (Z.of_nat (length seq)) (st_rng st)).2 (st_heap st) (st_dwg st),
     Ok x).
Proof.
  intros Hne k.
  assert (Hlen : 0 < Z.of_nat (length seq)) by (destruct seq; [done | simpl; lia]).
  pose proof (randbelow_range _ (st_rng st) Hlen) as Hk. fold k in Hk.
  destruct (getitem_in_range seq k Hk) as (x & Hx & Hget & _).
  exists x. split; [done|].
  unfold choice. destruct seq; [done|].
  rewrite bind_run, with_rng_run. fold k. unfold lift. rewrite Hget. reflexivity.
Qed.

Lemma choice_empty {A} st : choice (@nil A) st = (st, Raise IndexError).
Proof. reflexivity. Qed.

Lemma get_two_colors_run p st l :
  st_heap st !! p = Some l ->
  exists h',
    get_two_colors p st =
      (State (pick_two l (st_rng st)).1 h' (st_dwg st), (pick_two l (st_rng st)).2)
    /\ forall q, is_Some (st_heap st !! q) -> h' !! q = st_heap st !! q.
Proof.
  intros Hp. destruct st as [g h d]; simpl in *.
  set (q := fresh (dom h)).
  assert (Hq : h !! q = None) by (apply not_elem_of_dom, is_fresh).
  unfold get_two_colors, list_copy.
  rewrite !bind_run, (read_run p (State g h d) l Hp). unfold alloc; simpl. fold q.
  set (h1 := <[q:=l]> h).
  assert (H1 : h1 !! q = Some l) by apply lookup_insert_eq.
  rewrite bind_run, (list_len_run q (State g h1 d) l H1).
  destruct (decide (l = [])) as [->|Hne].
  { rewrite bind_run, randint_empty by (simpl; lia). simpl.
    exists h1. split; [reflexivity|].
    intros q' [x Hx]. unfold h1. rewrite lookup_insert_ne; [done|congruence]. }
  assert (Hlen : 0 < Z.of_nat (length l)) by (destruct l; [done | simpl; lia]).
  rewrite bind_run, randint_run by lia. simpl st_rng. simpl st_heap. simpl st_dwg.
  replace (Z.of_nat (length l) - 1 + 1 - 0) with (Z.of_nat (length l)) by lia.
  pose proof (randbelow_range _ g Hlen) as Hk.
  unfold pick_two.
  destruct (randbelow (Z.of_nat (length l)) g) as [k g1]; simpl in Hk |- *.
  destruct (getitem_in_range l k Hk) as (bg & Hbg & Hget & _).
  rewrite Z.add_0_l, bind_run, (list_getitem_run q (State g1 h1 d) l _ H1), Hget.
  rewrite bind_run, (list_pop_run q (State g1 h1 d) l k bg H1 Hk Hbg). simpl st_rng; simpl st_heap; simpl st_dwg.
  set (h2 := <[q:=delete (Z.to_nat k) l]> h1).
  assert (H2 : h2 !! q = Some (delete (Z.to_nat k) l)) by apply lookup_insert_eq.
  assert (Hframe : forall q', is_Some (h !! q') -> h2 !! q' = h !! q').
  { intros q' [x Hx]. unfold h2, h1. rewrite !lookup_insert_ne; [done| |]; congruence. }
  rewrite bind_run, (read_run q (State g1 h2 d) _ H2).
  destruct l as [|x0 l0]; [done|]. rewrite Hbg.
  destruct (delete (Z.to_nat k) (x0 :: l0)) as [|y rest] eqn:Erest.
  { rewrite bind_run, choice_empty. exists h2. split; [reflexivity|done]. }
  destruct (choice_run (y :: rest) (State g1 h2 d)) as (fg & Hfg & Hch); [done|].
  rewrite bind_run, Hch. simpl in Hfg |- *.
  destruct (randbelow _ g1) as [j g2]; simpl in Hfg |- *. rewrite Hfg.
  exists h2. split; [reflexivity|done].
Qed.

Lemma random_lt_run num den st :
  random_lt num den st =
  (State (random53 (st_rng st)).2 (st_heap st) (st_dwg st),
   Ok (bool_decide ((random53 (st_rng st)).1 * 2 ^ den < num * 2 ^ 53))).
Proof. unfold random_lt. rewrite bind_run, with_rng_run. reflexivity. Qed.

Ltac draw_choice c :=
  match goal with
  | |- context [(choice ?l ≫= _) ?st] =>
      let Hc := fresh "Hc" in let Hch := fresh "Hch" in
      destruct (choice_run l st) as (c & Hc & Hch); [done|];
      rewrite bind_run, Hch; clear Hch Hc
  end.

Ltac draw_done sh :=
  do 2 eexists; split; [reflexivity|]; simpl;
  repeat split; exists sh; split; reflexivity.

Lemma draw_circle_draws : draws "circle" draw_circle.
Proof.
  intros x y s fg bg st. unfold draw_circle.
  rewrite bind_run, random_lt_run.
  draw_done (Circle (bool_decide ((random53 (st_rng st)).1 * 2 ^ 54 < 5404319552844595 * 2 ^ 53))).
Qed.

Lemma draw_opposite_circles_draws : draws "opposite_circles" draw_opposite_circles.
Proof.
  intros x y s fg bg st. unfold draw_opposite_circles.
  rewrite bind_run. unfold defs_add at 1. cbv beta iota zeta.
  draw_choice c.
  draw_done (OppositeCircles c).
Qed.

Lemma draw_cross_draws : draws "cross" draw_cross.
Proof.
  intros x y s fg bg st. unfold draw_cross.
  rewrite bind_run, random_lt_run.
  destruct (bool_decide (_ < _)) eqn:Hplus.
  - draw_done (Cross true).
  - rewrite bind_run. destruct (bool_decide (s = 0)) eqn:Hs.
    + apply bool_decide_eq_true_1 in Hs.
      do 2 eexists. split; [reflexivity|]. simpl. done.
    + draw_done (Cross false).
Qed.

Lemma draw_half_square_draws : draws "half_square" draw_half_square.
Proof.
  intros x y s fg bg st. unfold draw_half_square.
  draw_choice c.
  draw_done (HalfSquare c).
Qed.

Lemma draw_diagonal_square_draws : draws "diagonal_square" draw_diagonal_square.
Proof.
  intros x y s fg bg st. unfold draw_diagonal_square.
  rewrite bind_run, random_lt_run.
  draw_done (DiagonalSquare (bool_decide ((random53 (st_rng st)).1 * 2 ^ 1 < 1 * 2 ^ 53))).
Qed.

Lemma draw_quarter_circle_draws : draws "quarter_circle" draw_quarter_circle.
Proof.
  intros x y s fg bg st. unfold draw_quarter_circle.
  draw_choice c.
  draw_done (QuarterCircle c).
Qed.

Lemma draw_dots_draws : draws "dots" draw_dots.
Proof.
  intros x y s fg bg st. unfold draw_dots.
  draw_choice c.
  draw_done (Dots c).
Qed.

Lemma draw_letter_block_draws : draws "letter_block" draw_letter_block.
Proof.
  intros x y s fg bg st. unfold draw_letter_block.
  draw_choice c.
  draw_done (LetterBlock c).
Qed.

Lemma style_lookup_elem m name f :
  style_lookup m name = Ok f -> (name, f) ∈ m.
Proof.
  unfold style_lookup. intros H.
  destruct (list_find _ m) as [[i [k f']]|] eqn:E; [|done].
  inversion H; subst f'. apply list_find_Some in E as (Hi & Hk & _).
  simpl in Hk. subst k. by eapply list_elem_of_lookup_2.
Qed.

Lemma style_lookup_key m name :
  name ∈ keys m -> exists f, style_lookup m name = Ok f.
Proof.
  unfold keys, style_lookup. intros H.
  apply list_elem_of_fmap in H as ([k f] & Heq & Hin). simpl in Heq. subst name.
  destruct (list_find _ m) as [[i [k' f']]|] eqn:E.
  - eauto.
  - eapply list_find_None in E. rewrite Forall_forall in E.
    exfalso. by apply (E _ Hin).
Qed.

Lemma style_map_little_draws name f :
  (name, f) ∈ style_map_little -> draws name f.
Proof.
  unfold style_map_little. rewrite !elem_of_cons, elem_of_nil.
  intros H. destruct_or!; try done; simplify_eq;
  eauto using draw_circle_draws, draw_opposite_circles_draws, draw_cross_draws,
    draw_half_square_draws, draw_diagonal_square_draws, draw_quarter_circle_draws,
    draw_dots_draws, draw_letter_block_draws.
Qed.

Lemma style_map_big_sub name f :
  (name, f) ∈ style_map_big -> (name, f) ∈ style_map_little /\ name <> "dots"%string.
Proof.
  unfold style_map_big, style_map_little. rewrite !elem_of_cons, elem_of_nil.
  intros H. destruct_or!; try done; simplify_eq; (split; [tauto|done]).
Qed.


Lemma big_available_styles_sub bs name :
  name ∈ big_available_styles bs ->
  name ∈ keys style_map_big /\ name <> "dots"%string.
Proof.
  unfold big_available_styles.
  destruct (filter _ bs) as [|s0 l0] eqn:E.
  - vm_compute bool_decide. intros H. split; [done|].
    intros ->. revert H. vm_compute keys.
    rewrite !elem_of_cons, elem_of_nil. intros H. destruct_or!; done.
  - rewrite <- E. intros H. apply list_elem_of_filter in H as [[Hk Hd] _].
    split; [|done]. unfold has_key in Hk. by apply bool_decide_eq_true_1 in Hk.
Qed.

Lemma big_available_styles_nonempty bs : big_available_styles bs <> [].
Proof.
  unfold big_available_styles.
  destruct (filter _ bs) as [|s0 l0] eqn:E; [|done].
  vm_compute. done.
Qed.

Lemma get_two_colors_unbound p st :
  st_heap st !! p = None -> get_two_colors p st = (st, Raise KeyError).
Proof.
  intros H. unfold get_two_colors, list_copy. rewrite !bind_run.
  unfold read at 1. rewrite H. reflexivity.
Qed.

Lemma generate_big_block_run rows cols size p bs m st l :
  st_heap st !! p = Some l ->
  let pt := pick_two l (st_rng st) in
  let run := generate_big_block rows cols size p bs m st in
  exists h',
    (forall q, is_Some (st_heap st !! q) -> h' !! q = st_heap st !! q) /\
    match pt.2 with
    | Raise e => run = (State pt.1 h' (st_dwg st), Raise e)
    | Ok colors =>
        let rx := randbelow (rows - m + 1) pt.1 in
        let ry := randbelow (cols - m + 1) rx.2 in
        if decide (rows < m) then
          run = (State pt.1 h' (st_dwg st), Raise ValueError)
        else if decide (cols < m) then
          run = (State rx.2 h' (st_dwg st), Raise ValueError)
        else
          exists name f g',
            name ∈ big_available_styles bs /\
            (name, f) ∈ style_map_big /\
            0 <= rx.1 <= rows - m /\ 0 <= ry.1 <= cols - m /\
            run = f (rx.1 * size) (ry.1 * size) (m * size)
                    (foreground colors) (background colors)
                    (State g' h' (st_dwg st))
    end.
Proof.
  intros Hp pt run.
  destruct (get_two_colors_run p st l Hp) as (h' & Hrun & Hframe).
  exists h'. split; [done|].
  subst run. unfold generate_big_block. rewrite bind_run, Hrun. fold pt.
  destruct (pt.2) as [colors|e]; [|reflexivity].
  cbv zeta.
  destruct (decide (rows < m)) as [Hx|Hx].
  { rewrite bind_run, randint_empty by lia. reflexivity. }
  rewrite bind_run, randint_run by lia.
  simpl st_rng; simpl st_heap; simpl st_dwg.
  rewrite Z.sub_0_r, Z.add_0_l.
  destruct (decide (cols < m)) as [Hy|Hy].
  { rewrite bind_run, randint_empty by lia. reflexivity. }
  rewrite bind_run, randint_run by lia.
  simpl st_rng; simpl st_heap; simpl st_dwg.
  rewrite Z.sub_0_r, Z.add_0_l.
  pose proof (randbelow_range (rows - m + 1) pt.1 ltac:(lia)) as Hkx.
  pose proof (randbelow_range (cols - m + 1) (randbelow (rows - m + 1) pt.1).2 ltac:(lia)) as Hky.
  match goal with
  | |- context [(choice ?l ≫= _) ?st] =>
      destruct (choice_run l st) as (name & Hname & Hch);
        [apply big_available_styles_nonempty|];
      rewrite bind_run, Hch; clear Hch
  end.
  apply list_elem_of_lookup_2 in Hname.
  destruct (big_available_styles_sub _ _ Hname) as [Hkey _].
  destruct (style_lookup_key _ _ Hkey) as [f Hf].
  rewrite bind_run. unfold lift at 1. rewrite Hf.
  exists name, f. eexists. repeat split; try lia; try done.
  by apply style_lookup_elem.
Qed.

(** C9.  The colour mix of [create_background_colors], the floor average
    [(r1 + r2) // 2] taken on each channel, is commutative: mixing [a] with
    [b] gives the colour that mixing [b] with [a] gives. *)
Theorem mix_comm (a b : rgb) : mix a b = mix b a.
Proof.
  destruct a as [[r1 g1] b1], b as [[r2 g2] b2]. unfold mix.
  by rewrite (Z.add_comm r1), (Z.add_comm g1), (Z.add_comm b1).
Qed.

(** C10.  [get_two_colors] never changes the palette it is given: after the
    call, whether it returned or raised, the list object at [color_palette]
    holds what it held before.  The element is popped from the copy. *)
Theorem get_two_colors_keeps_palette (color_palette : positive) (st : state) :
  st_heap (get_two_colors color_palette st).1 !! color_palette
  = st_heap st !! color_palette.
Proof.
  destruct (st_heap st !! color_palette) as [l|] eqn:Hp.
  - destruct (get_two_colors_run color_palette st l Hp) as (h' & Hrun & Hframe).
    rewrite Hrun. simpl. rewrite Hframe; [done|]. by rewrite Hp.
  - rewrite get_two_colors_unbound by done. done.
Qed.

Lemma get_two_colors_frame (p q : positive) (st : state) :
  is_Some (st_heap st !! q) ->
  st_heap (get_two_colors p st).1 !! q = st_heap st !! q.
Proof.
  intros Hq. destruct (st_heap st !! p) as [l|] eqn:Hp.
  - destruct (get_two_colors_run p st l Hp) as (h' & Hrun & Hframe).
    rewrite Hrun. simpl. by apply Hframe.
  - rewrite get_two_colors_unbound by done. done.
Qed.

Lemma pick_two_small l g :
  (length l < 2)%nat ->
  pick_two l g =
  match l with
  | [] => (g, Raise ValueError)
  | _ => ((randbelow 1 g).2, Raise IndexError)
  end.
Proof.
  intros Hl. destruct l as [|x [|y l]]; [done| |simpl in Hl; lia].
  unfold pick_two. simpl length. change (Z.of_nat 1) with 1.
  pose proof (randbelow_range 1 g ltac:(lia)) as Hk.
  destruct (randbelow 1 g) as [k g1]; simpl in Hk |- *.
  replace k with 0 by lia. reflexivity.
Qed.

Lemma pick_two_large l g :
  (2 <= length l)%nat ->
  let n := Z.of_nat (length l) in
  let i := (randbelow n g).1 in
  let j := (randbelow (n - 1) (randbelow n g).2).1 in
  exists bg fg,
    0 <= i < n /\ 0 <= j < n - 1 /\
    l !! Z.to_nat i = Some bg /\
    delete (Z.to_nat i) l !! Z.to_nat j = Some fg /\
    pick_two l g = ((randbelow (n - 1) (randbelow n g).2).2, Ok (Colors fg bg)).
Proof.
  intros Hl n i j.
  assert (Hn : 0 < n) by (unfold n; lia).
  pose proof (randbelow_range n g Hn) as Hi. fold i in Hi.
  destruct (getitem_in_range l i Hi) as (bg & Hbg & _).
  assert (Hlen : length (delete (Z.to_nat i) l) = Z.to_nat (n - 1)).
  { rewrite length_delete by eauto. unfold n. lia. }
  pose proof (randbelow_range (n - 1) (randbelow n g).2 ltac:(unfold n; lia)) as Hj.
  fold j in Hj.
  destruct (getitem_in_range (delete (Z.to_nat i) l) j) as (fg & Hfg & _).
  { rewrite Hlen. lia. }
  exists bg, fg. repeat split; try lia; try done.
  unfold pick_two. destruct l as [|x0 l0]; [simpl in Hl; lia|].
  fold n. destruct (randbelow n g) as [i' g1] eqn:Ei. simpl in i, j, Hj.
  subst i. rewrite Hbg.
  destruct (delete (Z.to_nat i') (x0 :: l0)) as [|y rest] eqn:Erest.
  { simpl in Hlen. lia. }
  rewrite Hlen. replace (Z.of_nat (Z.to_nat (n - 1))) with (n - 1) by lia.
  destruct (randbelow (n - 1) g1) as [j' g2] eqn:Ej. simpl in j. subst j.
  rewrite Hfg. simpl. rewrite Ej. reflexivity.
Qed.

(** C5.  On a palette of fewer than two colours [get_two_colors] raises (a
    [ValueError] from [random.randint] on the empty palette, an [IndexError]
    from [random.choice] on a palette of one colour: the code's form of an
    insufficient palette).  On two colours or more it returns: the
    background is the element at a draw of [_randbelow n], the foreground is
    the element, at the next draw of [_randbelow (n - 1)], of the copy with
    the background's position removed. *)
Theorem get_two_colors_palette_size (color_palette : positive) (st : state)
    (l : list string) :
  st_heap st !! color_palette = Some l ->
  let n := Z.of_nat (length l) in
  let draw1 := randbelow n (st_rng st) in
  let draw2 := randbelow (n - 1) draw1.2 in
  if decide (n < 2) then
    exists st',
      get_two_colors color_palette st =
      (st', Raise (if decide (n = 0) then ValueError else IndexError))
  else
    exists st' bg fg,
      l !! Z.to_nat draw1.1 = Some bg /\
      delete (Z.to_nat draw1.1) l !! Z.to_nat draw2.1 = Some fg /\
      0 <= draw1.1 < n /\ 0 <= draw2.1 < n - 1 /\
      st_rng st' = draw2.2 /\
      get_two_colors color_palette st = (st', Ok (Colors fg bg)).
Proof.
  intros Hp n draw1 draw2.
  destruct (get_two_colors_run color_palette st l Hp) as (h' & Hrun & _).
  destruct (decide (n < 2)) as [Hn|Hn].
  - rewrite pick_two_small in Hrun by (unfold n in Hn; lia).
    destruct l as [|x l']; simpl in Hrun.
    + eexists. rewrite Hrun. reflexivity.
    + eexists. rewrite Hrun. destruct (decide (n = 0)) as [H0|H0]; [|reflexivity].
      unfold n in H0. simpl in H0. lia.
  - destruct (pick_two_large l (st_rng st)) as (bg & fg & Hi & Hj & Hbg & Hfg & Hpick).
    { unfold n in Hn. lia. }
    rewrite Hpick in Hrun. simpl in Hrun.
    eexists _, bg, fg.
    split; [exact Hbg|]. split; [exact Hfg|].
    split; [exact Hi|]. split; [exact Hj|].
    split; [|exact Hrun]. reflexivity.
Qed.

(** On a palette without repeated entries the two colours differ. *)
Lemma get_two_colors_distinct (color_palette : positive) (st : state)
    (l : list string) :
  st_heap st !! color_palette = Some l ->
  NoDup l -> (2 <= length l)%nat ->
  exists st' c,
    get_two_colors color_palette st = (st', Ok c) /\
    foreground c <> background c.
Proof.
  intros Hp Hnd Hl.
  destruct (get_two_colors_run color_palette st l Hp) as (h' & Hrun & _).
  destruct (pick_two_large l (st_rng st) Hl) as (bg & fg & Hi & Hj & Hbg & Hfg & Hpick).
  rewrite Hpick in Hrun. simpl in Hrun.
  eexists _, _. split; [exact Hrun|]. simpl.
  intros ->.
  set (i := Z.to_nat (randbelow (Z.of_nat (length l)) (st_rng st)).1) in *.
  set (j := Z.to_nat (randbelow (Z.of_nat (length l) - 1) (randbelow (Z.of_nat (length l)) (st_rng st)).2).1) in *.
  destruct (decide (j < i)%nat) as [Hlt|Hge].
  - rewrite list_lookup_delete_lt in Hfg by done.
    pose proof (NoDup_lookup _ _ _ _ Hnd Hbg Hfg). lia.
  - rewrite list_lookup_delete_ge in Hfg by lia.
    pose proof (NoDup_lookup _ _ _ _ Hnd Hbg Hfg). lia.
Qed.

(** C4.  When the multiplier exceeds the number of rows or of columns,
    [generate_big_block] raises and leaves the drawing as it was: no
    primitive of the focal block is added.  On a palette of two colours or
    more the exception is the [ValueError] of [random.randint] on an empty
    range, the code's form of a layout error. *)
Theorem generate_big_block_overflow (num_rows num_cols square_size : Z)
    (color_palette : positive) (block_styles : list string) (multiplier : Z)
    (st : state) (l : list string) :
  st_heap st !! color_palette = Some l ->
  num_rows < multiplier \/ num_cols < multiplier ->
  exists st' e,
    generate_big_block num_rows num_cols square_size color_palette
      block_styles multiplier st = (st', Raise e) /\
    st_dwg st' = st_dwg st /\
    ((2 <= length l)%nat -> e = ValueError).
Proof.
  intros Hp Hm.
  destruct (generate_big_block_run num_rows num_cols square_size color_palette
              block_styles multiplier st l Hp) as (h' & _ & Hrun).
  cbv zeta in Hrun.
  destruct (pick_two l (st_rng st)).2 as [c|e] eqn:Hpick.
  - destruct (decide (num_rows < multiplier)) as [Hx|Hx].
    + eexists _, _. split; [exact Hrun|]. done.
    + destruct (decide (num_cols < multiplier)) as [Hy|Hy]; [|lia].
      eexists _, _. split; [exact Hrun|]. done.
  - eexists _, _. split; [exact Hrun|]. split; [done|].
    intros Hl. destruct (pick_two_large l (st_rng st) Hl) as (bg & fg & _ & _ & _ & _ & Hpt).
    rewrite Hpt in Hpick. done.
Qed.

(** C6.  Whatever the list of styles the caller allows, the styles the
    focal block chooses from are never empty and never hold dots, and every
    group [generate_big_block] adds to the drawing has a style of that list,
    which is not dots. *)
Theorem big_block_never_dots (num_rows num_cols square_size : Z)
    (color_palette : positive) (block_styles : list string) (multiplier : Z)
    (st : state) :
  big_available_styles block_styles <> [] /\
("dots"%string ∉ big_available_styles block_styles) /\
  new_groups st
    (generate_big_block num_rows num_cols square_size color_palette
       block_styles multiplier st).1
    (fun g => shape_style (g_shape g) ∈ big_available_styles block_styles /\
              shape_style (g_shape g) <> "dots"%string).
Proof.
  split; [apply big_available_styles_nonempty|].
  split; [intros H; by apply big_available_styles_sub in H as [_ H]|].
  intros el Hel.
  destruct (st_heap st !! color_palette) as [l|] eqn:Hp.
  2:{ unfold generate_big_block in Hel.
      rewrite bind_run, get_two_colors_unbound in Hel by done. by left. }
  destruct (generate_big_block_run num_rows num_cols square_size color_palette
              block_styles multiplier st l Hp) as (h' & _ & Hrun).
  cbv zeta in Hrun.
  destruct (pick_two l (st_rng st)).2 as [c|e] eqn:Hpick.
  2:{ rewrite Hrun in Hel. by left. }
  destruct (decide (num_rows < multiplier)) as [Hx|Hx].
  { rewrite Hrun in Hel. by left. }
  destruct (decide (num_cols < multiplier)) as [Hy|Hy].
  { rewrite Hrun in Hel. by left. }
  destruct Hrun as (name & f & g' & Hname & Hf & _ & _ & Hrun).
  rewrite Hrun in Hel.
  apply style_map_big_sub in Hf as [Hf Hnd].
  apply style_map_little_draws in Hf.
  destruct (Hf ((randbelow (num_rows - multiplier + 1) (pick_two l (st_rng st)).1).1 * square_size)
               ((randbelow (num_cols - multiplier + 1)
                   (randbelow (num_rows - multiplier + 1) (pick_two l (st_rng st)).1).2).1 * square_size)
               (multiplier * square_size) (foreground c) (background c)
               (State g' h' (st_dwg st)))
    as (st' & r & Hdraw & _ & _ & Hr).
  rewrite Hdraw in Hel. simpl in Hel.
  destruct r as [[]|e].
  - destruct Hr as (sh & Hsh & Hels). rewrite Hels in Hel. simpl in Hel.
    apply elem_of_app in Hel as [Hel|Hel]; [by left|].
    apply list_elem_of_singleton in Hel. right. eexists. split; [exact Hel|].
    simpl. rewrite Hsh. done.
  - destruct Hr as (_ & _ & Hels). rewrite Hels in Hel. by left.
Qed.


(** *** The declared size is set once *)

Lemma keeps_size_bind {A B} (m : M A) (k : A -> M B) :
  keeps_size m -> (forall a, keeps_size (k a)) -> keeps_size (m ≫= k).
Proof.
  intros Hm Hk st. rewrite bind_run. specialize (Hm st).
  destruct (m st) as [st1 [a|e]]; simpl in *; [|done].
  rewrite Hk. done.
Qed.

Lemma keeps_size_bind_lift {A B} (r : res A) (k : A -> M B) :
  (forall a, r = Ok a -> keeps_size (k a)) -> keeps_size (lift r ≫= k).
Proof.
  intros Hk st. rewrite bind_run. unfold lift.
  destruct r as [a|e]; [|done]. by apply Hk.
Qed.

Lemma keeps_size_ret {A} (a : A) : keeps_size (mret a).
Proof. done. Qed.
Lemma keeps_size_raise {A} e : keeps_size (@raise _ A e).
Proof. done. Qed.
Lemma keeps_size_lift {A} (r : res A) : keeps_size (lift r).
Proof. done. Qed.
Lemma keeps_size_with_rng {A} (f : rng -> A * rng) : keeps_size (with_rng f).
Proof. intros st. by rewrite with_rng_run. Qed.
Lemma keeps_size_read p : keeps_size (read p).
Proof. intros st. unfold read. by destruct (st_heap st !! p). Qed.
Lemma keeps_size_write p l : keeps_size (write p l).
Proof. done. Qed.
Lemma keeps_size_alloc l : keeps_size (alloc l).
Proof. done. Qed.
Lemma keeps_size_dwg_add e : keeps_size (dwg_add e).
Proof. done. Qed.
Lemma keeps_size_defs_add x : keeps_size (defs_add x).
Proof. done. Qed.
Lemma keeps_size_random_seed s : keeps_size (random_seed s).
Proof. done. Qed.

Lemma keeps_size_for_upto n body :
  (forall i, keeps_size (body i)) -> keeps_size (for_upto n body).
Proof.
  intros Hb. induction n as [|n IH]; simpl.
  - apply keeps_size_ret.
  - apply keeps_size_bind; [done|]. intros _. apply Hb.
Qed.

Lemma keeps_size_for_range n body :
  (forall i, keeps_size (body i)) -> keeps_size (for_range n body).
Proof. apply keeps_size_for_upto. Qed.

Lemma keeps_size_draws name f x y s fg bg :
  draws name f -> keeps_size (f x y s fg bg).
Proof.
  intros Hf st. destruct (Hf x y s fg bg st) as (st' & r & -> & _ & Hsz & _).
  done.
Qed.

Lemma keeps_size_style_little name f x y s fg bg :
  style_lookup style_map_little name = Ok f -> keeps_size (f x y s fg bg).
Proof.
  intros H. eapply keeps_size_draws, style_map_little_draws, style_lookup_elem, H.
Qed.

Lemma keeps_size_style_big name f x y s fg bg :
  style_lookup style_map_big name = Ok f -> keeps_size (f x y s fg bg).
Proof.
  intros H. eapply keeps_size_draws, style_map_little_draws.
  eapply style_map_big_sub, style_lookup_elem, H.
Qed.

Create HintDb keeps discriminated.
Hint Resolve keeps_size_ret keeps_size_raise keeps_size_lift
  keeps_size_with_rng keeps_size_read keeps_size_write keeps_size_alloc
  keeps_size_dwg_add keeps_size_defs_add keeps_size_random_seed : keeps.

Ltac keeps :=
  repeat first
    [ progress intros
    | apply keeps_size_bind_lift
    | solve [eapply keeps_size_style_little; eassumption]
    | solve [eapply keeps_size_style_big; eassumption]
    | apply keeps_size_bind
    | apply keeps_size_for_range
    | solve [auto with keeps]
    | match goal with
      | |- keeps_size (match ?x with _ => _ end) => destruct x
      | |- keeps_size (if ?b then _ else _) => destruct b
      | |- keeps_size (let '(_, _) := ?x in _) => destruct x
      end ].

Lemma keeps_size_randint a b : keeps_size (randint a b).
Proof. unfold randint. keeps. Qed.
Lemma keeps_size_choice {A} (l : list A) : keeps_size (choice l).
Proof. unfold choice. keeps. Qed.
Lemma keeps_size_random_lt n d : keeps_size (random_lt n d).
Proof. unfold random_lt. keeps. Qed.
Hint Resolve keeps_size_randint keeps_size_choice keeps_size_random_lt : keeps.

Lemma keeps_size_get_two_colors p : keeps_size (get_two_colors p).
Proof.
  unfold get_two_colors, list_copy, list_len, list_getitem, list_pop. keeps.
Qed.
Hint Resolve keeps_size_get_two_colors : keeps.

Lemma keeps_size_generate_little_block i j s p bs :
  keeps_size (generate_little_block i j s p bs).
Proof.
  unfold generate_little_block. keeps.
Qed.
Hint Resolve keeps_size_generate_little_block : keeps.

Lemma keeps_size_generate_grid r c s p bs :
  keeps_size (generate_grid r c s p bs).
Proof. unfold generate_grid. keeps. Qed.

Lemma keeps_size_generate_big_block r c s p bs m :
  keeps_size (generate_big_block r c s p bs m).
Proof.
  unfold generate_big_block. keeps.
Qed.
Hint Resolve keeps_size_generate_grid keeps_size_generate_big_block : keeps.

Lemma keeps_size_add_big_block a r c p : keeps_size (add_big_block a r c p).
Proof. unfold add_big_block. keeps. Qed.

Lemma keeps_size_create_background_colors p :
  keeps_size (create_background_colors p).
Proof. unfold create_background_colors, list_getitem. keeps. Qed.

Lemma keeps_size_generate_composition_grid e r c s bs :
  keeps_size (generate_composition_grid e r c s bs).
Proof.
  unfold generate_composition_grid. keeps.
Qed.
Hint Resolve keeps_size_add_big_block keeps_size_create_background_colors
  keeps_size_generate_composition_grid : keeps.

Lemma sorted_pair (t0 t1 : float * string) :
  sorted [t0; t1] = if tuple_lt t1 t0 then [t1; t0] else [t0; t1].
Proof. reflexivity. Qed.


Lemma bind_ok_inv {A B} (m : M A) (k : A -> M B) st st' b :
  (m ≫= k) st = (st', Ok b) ->
  exists a st1, m st = (st1, Ok a) /\ k a st1 = (st', Ok b).
Proof.
  rewrite bind_run. destruct (m st) as [st1 [a|e]]; [eauto|done].
Qed.

Lemma keeps_size_run {A} (m : M A) st st' r :
  keeps_size m -> m st = (st', r) ->
  dwg_size (st_dwg st') = dwg_size (st_dwg st).
Proof. intros Hm Hrun. specialize (Hm st). by rewrite Hrun in Hm. Qed.

Lemma default_to_given o m st st' v :
  default_to o m st = (st', Ok v) -> forall r, o = Some r -> v = r.
Proof. intros H r ->. simpl in H. by inversion H. Qed.

Lemma open_document_size r c s p st st' :
  open_document r c s p st = (st', Ok tt) ->
  dwg_size (st_dwg st') = (pretty (r * s) +:+ "px", pretty (c * s) +:+ "px")%string.
Proof.
  unfold open_document. intros H.
  apply bind_ok_inv in H as ([] & st1 & Hnew & H).
  erewrite keeps_size_run; [| |exact H].
  - unfold new_drawing in Hnew. by inversion Hnew.
  - keeps.
Qed.

Lemma save_run st st' d : save st = (st', Ok d) -> d = st_dwg st'.
Proof. unfold save. intros H. by inversion H. Qed.

(** What [main] does once the drawing is open keeps the declared size. *)
Lemma saved_size {A B} (grid : M A) (focal : M B) st st' d :
  keeps_size grid -> keeps_size focal ->
  (grid ≫= fun _ => focal ≫= fun _ => save) st = (st', Ok d) ->
  dwg_size d = dwg_size (st_dwg st).
Proof.
  intros Hg Hf H.
  apply bind_ok_inv in H as (a & st1 & Hgrid & H).
  apply bind_ok_inv in H as (b & st2 & Hfocal & H).
  apply save_run in H as Hd. unfold save in H. inversion H; subst.
  rewrite (keeps_size_run _ _ _ _ Hf Hfocal).
  apply (keeps_size_run _ _ _ _ Hg Hgrid).
Qed.

(** C2, amended.  The document either program saves declares the width
    [num_rows * square_size] and the height [num_cols * square_size], in
    pixels, where [num_rows] and [num_cols] are the given numbers of rows
    and columns when they are given: rows run along the x axis. *)
Theorem declared_size (a : args) (e : env) (st st' : state) (d : drawing) :
  main_v1 a e st = (st', Ok d) \/ main_v2 a e st = (st', Ok d) ->
  exists num_rows num_cols,
    (forall r, a_rows a = Some r -> num_rows = r) /\
    (forall c, a_cols a = Some c -> num_cols = c) /\
    dwg_size d =
    (pretty (num_rows * a_square_size a) +:+ "px",
     pretty (num_cols * a_square_size a) +:+ "px")%string.
Proof.
  intros [H|H].
  - unfold main_v1 in H.
    apply bind_ok_inv in H as ([] & st0 & _ & H).
    apply bind_ok_inv in H as (num_rows & st1 & Hr & H).
    apply bind_ok_inv in H as (num_cols & st2 & Hc & H).
    apply bind_ok_inv in H as (p & st3 & _ & H).
    apply bind_ok_inv in H as ([] & st4 & Hopen & H).
    exists num_rows, num_cols.
    split; [eapply default_to_given, Hr|].
    split; [eapply default_to_given, Hc|].
    rewrite <- (open_document_size _ _ _ _ _ _ Hopen).
    eapply saved_size; [| |exact H]; keeps.
  - unfold main_v2 in H.
    apply bind_ok_inv in H as ([] & st0 & _ & H).
    apply bind_ok_inv in H as (num_rows & st1 & Hr & H).
    apply bind_ok_inv in H as (num_cols & st2 & Hc & H).
    apply bind_ok_inv in H as (p & st3 & _ & H).
    apply bind_ok_inv in H as ([] & st4 & Hopen & H).
    exists num_rows, num_cols.
    split; [eapply default_to_given, Hr|].
    split; [eapply default_to_given, Hc|].
    rewrite <- (open_document_size _ _ _ _ _ _ Hopen).
    eapply saved_size; [| |exact H]; keeps.
Qed.


End Proofs.


(** C1.  A palette with two distinct colours and a repeated entry: the
    first draw takes the first ["#ff0000"] as background, the second draw
    takes the other ["#ff0000"] as foreground, and the two colours returned
    are equal. *)
Lemma get_two_colors_duplicate_entries :
  (@get_two_colors tape_random 1%positive
     (tape_state [0; 0] ["#ff0000"; "#ff0000"; "#00ff00"]%string)).2
  = Ok (Colors "#ff0000" "#ff0000").
Proof. vm_compute. reflexivity. Qed.

(** ** Concrete runs *)

Definition palettes_rgb : list (list string) :=
  [["#ff0000"; "#00ff00"; "#0000ff"]%string].

Definition env_rgb : @env toy_libraries :=
  @Env toy_libraries (Ok palettes_rgb) (Raise OSError).

Definition args_1x2 : args :=
  Args (Some 1) (Some 2) 10 (Some 7) (Some 0) false None None None None 5.

Lemma declared_size_witness :
  exists d,
    (@main_v1 tape_random toy_libraries args_1x2 env_rgb (tape_state [] [])).2 = Ok d /\
    dwg_size d = ("10px", "20px")%string.
Proof.
  destruct (@main_v1 tape_random toy_libraries args_1x2 env_rgb (tape_state [] []))
    as [st' [d|e]] eqn:Hrun.
  - exists d. split; [reflexivity|].
    destruct (@declared_size tape_random toy_libraries args_1x2 env_rgb _ _ _
                (or_introl Hrun)) as (r & c & Hr & Hc & Hsize).
    rewrite Hsize, (Hr 1 eq_refl), (Hc 2 eq_refl). vm_compute. reflexivity.
  - apply (f_equal snd) in Hrun. vm_compute in Hrun. discriminate.
Defined.

(** C2 as stated fails on a grid of 1 row and 2 columns of size 10: the
    declared width is 10px, not [cols * cellSize], and the height 20px. *)
Lemma declared_size_swapped :
  exists d,
    (@main_v1 tape_random toy_libraries args_1x2 env_rgb (tape_state [] [])).2 = Ok d /\
    dwg_size d <> (pretty (2 * 10) +:+ "px", pretty (1 * 10) +:+ "px")%string.
Proof.
  eexists. split; [vm_compute; reflexivity|]. vm_compute. discriminate.
Qed.
Definition rgb_palette : list string := ["#ff0000"; "#00ff00"; "#0000ff"]%string.

Definition dark_centroid : centroid := (10.5, 20.25, 30.75)%float.
Definition light_centroid : centroid := (200.5, 100.25, 50.0)%float.

Lemma finite_dark : finite_centroid dark_centroid.
Proof. vm_compute. tauto. Defined.
Lemma finite_light : finite_centroid light_centroid.
Proof. vm_compute. tauto. Defined.


Lemma generate_big_block_overflow_witness :
  exists st' e,
    @generate_big_block tape_random 2 2 10 1%positive all_styles 3
      (tape_state [] rgb_palette) = (st', Raise e) /\
    st_dwg st' = empty_drawing /\
    ((2 <= length rgb_palette)%nat -> e = ValueError).
Proof.
  apply (@generate_big_block_overflow tape_random 2 2 10 1%positive all_styles 3
           (tape_state [] rgb_palette) rgb_palette).
  - reflexivity.
  - left. lia.
Defined.

Lemma get_two_colors_palette_size_witness :
  (exists st',
     @get_two_colors tape_random 1%positive (tape_state [] ["#ff0000"%string])
     = (st', Raise IndexError)) /\
  (exists st' bg fg,
     rgb_palette !! 2%nat = Some bg /\
     delete 2%nat rgb_palette !! 1%nat = Some fg /\
     @get_two_colors tape_random 1%positive (tape_state [5; 3] rgb_palette)
     = (st', Ok (Colors fg bg))).
Proof.
  split.
  - exact (@get_two_colors_palette_size tape_random 1%positive
             (tape_state [] ["#ff0000"%string]) ["#ff0000"%string] eq_refl).
  - destruct (@get_two_colors_palette_size tape_random 1%positive
                (tape_state [5; 3] rgb_palette) rgb_palette eq_refl)
      as (st' & bg & fg & Hbg & Hfg & _ & _ & _ & Hrun).
    exists st', bg, fg. split; [exact Hbg|]. split; [exact Hfg|]. exact Hrun.
Defined.


(** The heap after a call: the palette at location 1 is whole, the copy at
    location 2 lost the background. *)
Lemma get_two_colors_pops_the_copy :
  let st' := (@get_two_colors tape_random 1%positive
                (tape_state [0; 0] rgb_palette)).1 in
  st_heap st' !! 1%positive = Some rgb_palette /\
  st_heap st' !! 2%positive = Some ["#00ff00"; "#0000ff"]%string.
Proof. split; vm_compute; reflexivity. Qed.

(** Popping from the palette itself would show in the heap. *)
Lemma list_pop_mutates :
  st_heap (@list_pop tape_random 1%positive 0 (tape_state [] rgb_palette)).1
    !! 1%positive
  = Some ["#00ff00"; "#0000ff"]%string.
Proof. vm_compute. reflexivity. Qed.

Definition args_seeded : args :=
  Args (Some 2) (Some 3) 10 (Some 7) (Some 0) true (Some 2) None None None 5.



(** Without a seed the run follows the state the generator happens to be in. *)
Lemma unseeded_runs_differ :
  let a := Args (Some 2) (Some 3) 10 None (Some 0) true (Some 2) None None None 5 in
  (@main_v1 tape_random toy_libraries a env_rgb (tape_state [1; 2; 3] [])).2
  <> (@main_v1 tape_random toy_libraries a env_rgb (tape_state [] [])).2.
Proof. vm_compute. discriminate. Qed.

(** ** Further properties of the code *)

(** [range(n)] *)
Definition py_range (n : Z) : list Z := Z.of_nat <$> seq 0 (Z.to_nat n).

(** *** Writing a colour and reading it back *)

(** The check behind [format_02x_byte], on one channel value. *)
Definition byte_round_trip (k : nat) : bool :=
  match format_02x (Z.of_nat k) with
  | String a (String b EmptyString) =>
      negb (Ascii.eqb a "#") &&
      match int16 (String a (String b EmptyString)) with
      | Ok m => Z.eqb m (Z.of_nat k)
      | Raise _ => false
      end
  | _ => false
  end.

Lemma byte_round_trip_all : forallb byte_round_trip (seq 0 256) = true.
Proof. vm_compute. reflexivity. Qed.

Lemma format_02x_byte (n : Z) :
  0 <= n < 256 ->
  exists a b,
    format_02x n = String a (String b EmptyString) /\
    a <> "#"%char /\
    int16 (String a (String b EmptyString)) = Ok n.
Proof.
  intros Hn.
  pose proof byte_round_trip_all as Hall.
  rewrite forallb_forall in Hall.
  specialize (Hall (Z.to_nat n)).
  assert (Hin : In (Z.to_nat n) (seq 0 256)) by (apply in_seq; lia).
  apply Hall in Hin. unfold byte_round_trip in Hin.
  rewrite Z2Nat.id in Hin by lia.
  destruct (format_02x n) as [|a [|b [|]]]; try done.
  apply andb_prop in Hin as [Ha Hb].
  exists a, b. split; [done|]. split.
  - intros ->. done.
  - destruct (int16 _) as [m|]; [|done]. apply Z.eqb_eq in Hb. by subst.
Qed.

Lemma lstrip_hash_head (a : ascii) (s : string) :
  a <> "#"%char -> lstrip_hash (String a s) = String a s.
Proof.
  intros Ha. destruct a as [[] [] [] [] [] [] [] []]; try reflexivity.
  by destruct Ha.
Qed.

Lemma hex_colour_bytes (r g b : Z) :
  0 <= r < 256 -> 0 <= g < 256 -> 0 <= b < 256 ->
  hex_to_rgb
    (lstrip_hash ("#" +:+ format_02x r +:+ format_02x g +:+ format_02x b))
  = Ok (r, g, b).
Proof.
  intros Hr Hg Hb.
  destruct (format_02x_byte r Hr) as (r1 & r2 & -> & Hr1 & Hir).
  destruct (format_02x_byte g Hg) as (g1 & g2 & -> & _ & Hig).
  destruct (format_02x_byte b Hb) as (b1 & b2 & -> & _ & Hib).
  change ("#" +:+ String r1 (String r2 "") +:+ String g1 (String g2 "")
            +:+ String b1 (String b2 ""))%string
    with (String "#" (String r1 (String r2 (String g1 (String g2
            (String b1 (String b2 ""))))))).
  change (lstrip_hash (String "#" ?s)) with (lstrip_hash s).
  rewrite lstrip_hash_head by done.
  unfold hex_to_rgb, slice2. cbn [substring].
  rewrite Hir, Hig, Hib. reflexivity.
Qed.

(** X6.  A colour written as ["#%02x%02x%02x"] from three channels between
    0 and 255 is read back, by the parsing of [create_background_colors], as
    the same three channels. *)
Theorem hex_colour_round_trip (r g b : Z) :
  0 <= r < 256 -> 0 <= g < 256 -> 0 <= b < 256 ->
  hex_to_rgb
    (lstrip_hash ("#" +:+ format_02x r +:+ format_02x g +:+ format_02x b))
  = Ok (r, g, b).
Proof. apply hex_colour_bytes. Qed.

(** *** Sorting by brightness *)

Lemma insert_sorted_perm x l : insert_sorted x l ≡ₚ x :: l.
Proof.
  induction l as [|y l IH]; simpl; [done|].
  destruct (tuple_lt x y); [done|].
  rewrite IH. apply Permutation_swap.
Qed.

Lemma sorted_perm l : sorted l ≡ₚ l.
Proof.
  unfold sorted.
  assert (H : forall acc, foldl (fun acc x => insert_sorted x acc) acc l ≡ₚ acc ++ l).
  { induction l as [|x l IH]; intros acc; simpl.
    - by rewrite app_nil_r.
    - rewrite IH, insert_sorted_perm. simpl. apply Permutation_middle. }
  apply H.
Qed.

Lemma hex_colors_of_length cs hs :
  hex_colors_of cs = Ok hs -> length hs = length cs.
Proof.
  revert hs. induction cs as [|c cs IH]; intros hs; simpl.
  - by intros [= <-].
  - destruct (centroid_hex c) as [h|]; [|done]. simpl.
    destruct (hex_colors_of cs) as [hs'|]; [|done]. simpl.
    intros [= <-]. simpl. by rewrite (IH hs').
Qed.

Lemma hex_colors_of_all cs h :
  Forall (fun c => centroid_hex c = Ok h) cs ->
  hex_colors_of cs = Ok (replicate (length cs) h).
Proof.
  induction 1 as [|c cs Hc _ IH]; simpl; [done|].
  rewrite Hc. simpl. rewrite IH. reflexivity.
Qed.

Lemma getitem_first_last {A} (l : list A) :
  l <> [] ->
  exists x y, getitem l 0 = Ok x /\ getitem l (-1) = Ok y /\ x ∈ l /\ y ∈ l.
Proof.
  intros Hl.
  assert (Hlen : (0 < length l)%nat) by (destruct l; [done|simpl; lia]).
  destruct (getitem_in_range l 0) as (x & Hx & Hg & _); [lia|].
  destruct (l !! (length l - 1)%nat) as [y|] eqn:Hy.
  2:{ apply lookup_ge_None in Hy. lia. }
  exists x, y. split; [done|]. split.
  - unfold getitem, py_index.
    rewrite bool_decide_eq_false_2 by lia.
    rewrite bool_decide_eq_true_2 by lia.
    replace (Z.to_nat (Z.of_nat (length l) + -1)) with (length l - 1)%nat by lia.
    by rewrite Hy.
  - split; by eapply list_elem_of_lookup_2.
Qed.

(** *** Primitives with integer coordinates

    Two styles draw with the integers they are given: the polygon of
    [draw_diagonal_square] (SVG_ArtGrid.py 277-280) and the path of
    [draw_quarter_circle] (299-314). *)

Definition diagonal_square_points (is_top_left_to_bottom_right : bool)
    (x y square_size : Z) : list (Z * Z) :=
  if is_top_left_to_bottom_right
  then [(x, y); (x + square_size, y + square_size); (x, y + square_size)]
  else [(x + square_size, y); (x + square_size, y + square_size); (x, y)].

Inductive path_command : Type :=
  | MoveTo (x y : Z)
  | ArcTo (rx ry : Z) (x y : Z)
  | LineTo (x y : Z).

(** The text pushed on the path: [f"M {x} {y}"],
    [f"A {rx} {ry} 0 0 1 {x} {y}"], [f"L {x} {y}"]. *)
Definition path_text (c : path_command) : string :=
  match c with
  | MoveTo x y => "M " +:+ pretty x +:+ " " +:+ pretty y
  | ArcTo rx ry x y =>
      "A " +:+ pretty rx +:+ " " +:+ pretty ry +:+ " 0 0 1 "
        +:+ pretty x +:+ " " +:+ pretty y
  | LineTo x y => "L " +:+ pretty x +:+ " " +:+ pretty y
  end.

Definition quarter_circle_path (corner : string) (x y square_size : Z)
    : list path_command :=
  if bool_decide (corner = "top-left"%string) then
    [MoveTo x y; ArcTo square_size square_size (x + square_size) y; LineTo x y]
  else if bool_decide (corner = "top-right"%string) then
    [MoveTo (x + square_size) y;
     ArcTo square_size square_size (x + square_size) (y + square_size);
     LineTo (x + square_size) y]
  else if bool_decide (corner = "bottom-right"%string) then
    [MoveTo (x + square_size) (y + square_size);
     ArcTo square_size square_size x (y + square_size);
     LineTo (x + square_size) (y + square_size)]
  else
    [MoveTo x (y + square_size); ArcTo square_size square_size x y;
     LineTo x (y + square_size)].

(** Twice the signed area of a polygon (the shoelace sum). *)
Fixpoint shoelace_from (first : Z * Z) (pts : list (Z * Z)) : Z :=
  match pts with
  | [] => 0
  | [p] => p.1 * first.2 - first.1 * p.2
  | p :: (q :: _) as rest => p.1 * q.2 - q.1 * p.2 + shoelace_from first rest
  end.
Definition shoelace (pts : list (Z * Z)) : Z :=
  match pts with
  | [] => 0
  | p :: _ => shoelace_from p pts
  end.

(** X18.  The triangle of [draw_diagonal_square]: in both variants two of
    its three vertices are the top-left and the bottom-right corner of the
    cell, the third is the bottom-left corner in one variant and the
    top-right corner in the other, and twice its area is [size * size]: the
    two variants are the two halves of the cell along the same diagonal. *)
Theorem diagonal_square_same_diagonal (b : bool) (x y square_size : Z) :
  (x, y) ∈ diagonal_square_points b x y square_size /\
  (x + square_size, y + square_size) ∈ diagonal_square_points b x y square_size /\
  (if b then (x, y + square_size) else (x + square_size, y))
    ∈ diagonal_square_points b x y square_size /\
  length (diagonal_square_points b x y square_size) = 3%nat /\
  shoelace (diagonal_square_points b x y square_size)
  = square_size * square_size.
Proof.
  destruct b; unfold diagonal_square_points;
    (split; [set_solver|]); (split; [set_solver|]); (split; [set_solver|]);
    (split; [reflexivity|]); unfold shoelace; cbn; ring.
Qed.

(** X19.  The path of [draw_quarter_circle], for any corner name: it moves
    to a corner of the cell, draws an arc of radius [size] to another corner
    and a line back to where it started; the two corners are adjacent, their
    distance being [size], the radius of the arc. *)
Theorem quarter_circle_chord (corner : string) (x y square_size : Z) :
  exists x0 y0 x1 y1,
    quarter_circle_path corner x y square_size =
      [MoveTo x0 y0; ArcTo square_size square_size x1 y1; LineTo x0 y0] /\
    (x0 = x \/ x0 = x + square_size) /\ (y0 = y \/ y0 = y + square_size) /\
    (x1 = x \/ x1 = x + square_size) /\ (y1 = y \/ y1 = y + square_size) /\
    (x1 - x0) * (x1 - x0) + (y1 - y0) * (y1 - y0) = square_size * square_size.
Proof.
  unfold quarter_circle_path. repeat case_bool_decide;
    eexists _, _, _, _; (split; [reflexivity|]); repeat split; try tauto; lia.
Qed.

Lemma substring_cut (s : string) : forall n m k,
  (n + m <= k)%nat -> substring n m (substring 0 k s) = substring n m s.
Proof.
  induction s as [|c s IH]; intros n m k H.
  - by destruct k.
  - destruct k as [|k].
    + assert (n = 0%nat) by lia. assert (m = 0%nat) by lia. by subst.
    + change (substring 0 (S k) (String c s)) with (String c (substring 0 k s)).
      destruct n as [|n].
      * destruct m as [|m]; [reflexivity|].
        simpl. f_equal. apply (IH 0%nat m k). lia.
      * simpl. apply IH. lia.
Qed.

(** X20.  The parsing of a colour in [create_background_colors] reads its
    first six characters only: what follows them is ignored. *)
Theorem hex_to_rgb_first_six (color : string) :
  hex_to_rgb color = hex_to_rgb (substring 0 6 color).
Proof.
  unfold hex_to_rgb, slice2. by rewrite !(substring_cut color _ 2 6) by lia.
Qed.

Section Coverage.
Context {RS : RandomSource} {LIB : Libraries}.

(** A computation that changes no list object that exists when it starts. *)
Definition keeps_objects {A} (m : M A) : Prop :=
  forall st q, is_Some (st_heap st !! q) ->
    st_heap (m st).1 !! q = st_heap st !! q.

(** What [create_background_colors] returns, as a function of the elements
    of the palette; [create_background_colors_run] shows that the code
    computes it and leaves the state alone. *)
Definition background_of (l : list string) : res (string * string) :=
  c0 ← getitem l 0 ;
  c1 ← getitem l 1 ;
  rgb1 ← hex_to_rgb (lstrip_hash c0) ;
  rgb2 ← hex_to_rgb (lstrip_hash c1) ;
  let '(r, g, b) := mix rgb1 rgb2 in
  hls_stops r g b.

(** What [generate_composition_grid] promises of the group of cell [(i, j)]:
    its colours are those sampled from the cell's region of the image. *)
Definition sampled_group (img : image) (square_size : Z)
    (block_styles : list string) (i j : Z) (g : group) : Prop :=
  g_x g = i * square_size /\ g_y g = j * square_size /\
  g_size g = square_size /\
  sample_image_region img (i * square_size) (j * square_size)
    square_size square_size 2
  = Ok (Colors (g_foreground g) (g_background g)) /\
  shape_style (g_shape g) ∈ little_available_styles block_styles.

(** A cluster centre whose channels truncate to bytes. *)
Definition byte_centroid (c : centroid) : Prop :=
  exists r g b,
    int_of_float c.1.1 = Ok r /\ int_of_float c.1.2 = Ok g /\
    int_of_float c.2 = Ok b /\
    0 <= r < 256 /\ 0 <= g < 256 /\ 0 <= b < 256.

(** A palette [main] can draw with: two colours or more, and a background
    gradient that can be computed from the first two. *)
Definition usable_palette (l : list string) : Prop :=
  (2 <= length l)%nat /\ exists stops, background_of l = Ok stops.

(** The focal block inside a grid of [num_rows] by [num_cols] cells. *)
Definition focal_group (num_rows num_cols square_size : Z) (g : group) : Prop :=
  exists m, (m = 2 \/ m = 3) /\
    g_size g = m * square_size /\
    0 <= g_x g <= (num_rows - m) * square_size /\
    0 <= g_y g <= (num_cols - m) * square_size /\
    shape_style (g_shape g) <> "dots"%string.

(** What [generate_little_block] promises of the group of cell [(i, j)]. *)
Definition cell_group (square_size : Z) (palette block_styles : list string)
    (i j : Z) (g : group) : Prop :=
  g_x g = i * square_size /\ g_y g = j * square_size /\
  g_size g = square_size /\
  g_foreground g ∈ palette /\ g_background g ∈ palette /\
  shape_style (g_shape g) ∈ little_available_styles block_styles.

(** X21.  The styles of a little block: when the caller's list holds at
    least one known style, they are the known styles of that list, in its
    order and with its repetitions; when it holds none, they are all eight
    styles. *)
Theorem little_styles_allowed (block_styles : list string) :
  ((exists s, s ∈ block_styles /\ s ∈ all_styles) ->
   little_available_styles block_styles
   = filter (fun s => s ∈ all_styles) block_styles) /\
  ((forall s, s ∈ block_styles -> s ∉ all_styles) ->
   little_available_styles block_styles = all_styles).
Proof.
  assert (Hf : filter (fun style => has_key style_map_little style = true)
                 block_styles
               = filter (fun s => s ∈ all_styles) block_styles).
  { apply list_filter_iff. intros s. unfold has_key.
    rewrite bool_decide_eq_true. reflexivity. }
  unfold little_available_styles. rewrite Hf.
  set (F := filter (fun s => s ∈ all_styles) block_styles).
  split.
  - intros (s & Hs & Hk).
    assert (Hin : s ∈ F) by (by apply list_elem_of_filter).
    destruct F; [by apply elem_of_nil in Hin|done].
  - intros Hnone.
    assert (HF : forall s, s ∈ F -> False).
    { intros s Hin. apply list_elem_of_filter in Hin as [Hk Hs].
      by destruct (Hnone s Hs). }
    destruct F as [|s0 l0]; [done|]. destruct (HF s0). left.
Qed.

Lemma keys_style_map_little : keys style_map_little = all_styles.
Proof. reflexivity. Qed.

Lemma little_available_styles_keys bs name :
  name ∈ little_available_styles bs -> name ∈ keys style_map_little.
Proof.
  unfold little_available_styles.
  destruct (filter _ bs) as [|s0 l0] eqn:E; [done|].
  rewrite <- E. intros H. apply list_elem_of_filter in H as [Hk _].
  by apply bool_decide_eq_true_1 in Hk.
Qed.

Lemma little_available_styles_nonempty bs : little_available_styles bs <> [].
Proof.
  unfold little_available_styles.
  destruct (filter _ bs) as [|s0 l0] eqn:E; done.
Qed.

Lemma pick_two_members l g c :
  (pick_two l g).2 = Ok c -> foreground c ∈ l /\ background c ∈ l.
Proof.
  unfold pick_two. destruct l as [|x0 l0]; [done|].
  destruct (randbelow _ g) as [k g1].
  destruct ((x0 :: l0) !! Z.to_nat k) as [bg|] eqn:Hbg; [|done].
  destruct (delete (Z.to_nat k) (x0 :: l0)) as [|y rest] eqn:Hd; [done|].
  destruct (randbelow _ g1) as [j g2].
  destruct ((y :: rest) !! Z.to_nat j) as [fg|] eqn:Hfg; [|done].
  simpl. intros [= <-]. simpl. split.
  - apply list_elem_of_lookup_2 in Hfg. rewrite <- Hd in Hfg.
    by eapply list_elem_of_delete_inv.
  - by eapply list_elem_of_lookup_2.
Qed.

Lemma generate_little_block_run i j s p bs st l :
  st_heap st !! p = Some l -> (2 <= length l)%nat -> s <> 0 ->
  exists st' g,
    generate_little_block i j s p bs st = (st', Ok tt) /\
    dwg_elements (st_dwg st') = dwg_elements (st_dwg st) ++ [BlockGroup g] /\
    cell_group s l bs i j g /\
    st_heap st' !! p = Some l.
Proof.
  intros Hp Hl Hs.
  destruct (get_two_colors_run p st l Hp) as (h' & Hrun & Hframe).
  destruct (pick_two_large l (st_rng st) Hl) as (bg & fg & _ & _ & Hbg & Hfg & Hpt).
  assert (Hmem : fg ∈ l /\ bg ∈ l).
  { apply (pick_two_members l (st_rng st) (Colors fg bg)). by rewrite Hpt. }
  rewrite Hpt in Hrun. cbn [fst snd] in Hrun.
  unfold generate_little_block. rewrite bind_run, Hrun.
  match goal with
  | |- context [(choice ?l0 ≫= _) ?st0] =>
      destruct (choice_run l0 st0) as (name & Hname & Hch);
        [apply little_available_styles_nonempty|];
      rewrite bind_run, Hch; clear Hch
  end.
  apply list_elem_of_lookup_2 in Hname.
  destruct (style_lookup_key _ _ (little_available_styles_keys _ _ Hname)) as [f Hf].
  rewrite bind_run. unfold lift at 1. rewrite Hf. cbv zeta.
  pose proof (style_map_little_draws name f (style_lookup_elem _ _ _ Hf)) as Hdraw.
  match goal with
  | |- context [f ?x ?y ?sz ?a ?b ?st0] =>
      destruct (Hdraw x y sz a b st0) as (st' & r & Hd & Hheap & _ & Hres)
  end.
  rewrite Hd. destruct r as [[]|e].
  - destruct Hres as (sh & Hsh & Hels). simpl in Hels, Hheap.
    eexists st', _. split; [reflexivity|]. split; [exact Hels|].
    split.
    + unfold cell_group. simpl. rewrite Hsh. tauto.
    + rewrite Hheap. rewrite Hframe; [done|]. by rewrite Hp.
  - destruct Hres as (_ & Hz & _). done.
Qed.

(** A loop whose body adds groups and keeps an invariant. *)
Lemma for_upto_groups (n : nat) (body : Z -> M unit) (I : state -> Prop)
    (C : Z -> list group -> Prop) :
  (forall k st, 0 <= k < Z.of_nat n -> I st ->
     exists st' gs, body k st = (st', Ok tt) /\ I st' /\ C k gs /\
       dwg_elements (st_dwg st') =
       dwg_elements (st_dwg st) ++ (BlockGroup <$> gs)) ->
  forall st, I st ->
  exists st' gss,
    for_upto n body st = (st', Ok tt) /\ I st' /\
    Forall2 C (Z.of_nat <$> seq 0 n) gss /\
    dwg_elements (st_dwg st') =
    dwg_elements (st_dwg st) ++ (BlockGroup <$> concat gss).
Proof.
  induction n as [|n IH]; intros Hbody st HI.
  - exists st, []. simpl. rewrite app_nil_r. repeat split; done.
  - destruct (IH ltac:(intros; apply Hbody; [lia|done]) st HI)
      as (st1 & gss & Hrun & HI1 & HC & Hels).
    destruct (Hbody (Z.of_nat n) st1 ltac:(lia) HI1)
      as (st2 & gs & Hb & HI2 & HCn & Hels2).
    exists st2, (gss ++ [gs]).
    split.
    { cbn [for_upto]. rewrite bind_run, Hrun. exact Hb. }
    split; [done|]. split.
    { rewrite seq_S, fmap_app. apply Forall2_app; [done|].
      simpl. constructor; [done|constructor]. }
    rewrite Hels2, Hels, concat_app, fmap_app. simpl.
    rewrite app_nil_r, app_assoc. done.
Qed.

Lemma generate_grid_run (num_rows num_cols square_size : Z)
    (color_palette : positive) (block_styles : list string) (st : state)
    (l : list string) :
  st_heap st !! color_palette = Some l -> (2 <= length l)%nat ->
  square_size <> 0 ->
  exists st' rows,
    generate_grid num_rows num_cols square_size color_palette block_styles st
      = (st', Ok tt) /\
    dwg_elements (st_dwg st') =
      dwg_elements (st_dwg st) ++ (BlockGroup <$> concat rows) /\
    Forall2 (fun i row =>
               Forall2 (cell_group square_size l block_styles i)
                 (py_range num_cols) row)
      (py_range num_rows) rows /\
    st_heap st' !! color_palette = Some l.
Proof.
  intros Hp Hl Hs. unfold generate_grid, for_range.
  destruct (for_upto_groups (Z.to_nat num_rows)
    (fun i => for_upto (Z.to_nat num_cols) (fun j =>
       generate_little_block i j square_size color_palette block_styles))
    (fun st0 => st_heap st0 !! color_palette = Some l)
    (fun i row => Forall2 (cell_group square_size l block_styles i)
                    (py_range num_cols) row)) with (st := st)
    as (st' & rows & Hrun & HI & HC & Hels); [|done|].
  - intros i st0 _ HI0.
    destruct (for_upto_groups (Z.to_nat num_cols)
      (fun j => generate_little_block i j square_size color_palette block_styles)
      (fun st1 => st_heap st1 !! color_palette = Some l)
      (fun j gs => exists g, gs = [g] /\
                     cell_group square_size l block_styles i j g))
      with (st := st0) as (st1 & gss & Hrun & HI1 & HC & Hels); [|done|].
    + intros j st1 _ HI1.
      destruct (generate_little_block_run i j square_size color_palette
                  block_styles st1 l HI1 Hl Hs) as (st2 & g & Hr & He & Hc & Hh).
      exists st2, [g]. eauto 10.
    + exists st1, (concat gss). repeat split; try done.
      unfold py_range. clear -HC.
      induction HC as [|j gs js gss (g & -> & Hg) _ IH]; simpl; [constructor|].
      constructor; done.
  - exists st', rows. done.
Qed.



Lemma for_upto_first_raises (n : nat) (body : Z -> M unit) st st' e :
  (0 < n)%nat -> body 0 st = (st', Raise e) ->
  for_upto n body st = (st', Raise e).
Proof.
  intros Hn Hb. induction n as [|n IH]; [lia|].
  cbn [for_upto]. rewrite bind_run.
  destruct n as [|n].
  - simpl. exact Hb.
  - rewrite IH by lia. reflexivity.
Qed.

(** X2.  On a palette of fewer than two colours and a grid with at least
    one cell, [generate_grid] raises in the first cell ([ValueError] on the
    empty palette, [IndexError] on one colour) and the drawing is as it
    was. *)
Theorem generate_grid_small_palette (num_rows num_cols square_size : Z)
    (color_palette : positive) (block_styles : list string) (st : state)
    (l : list string) :
  st_heap st !! color_palette = Some l -> (length l < 2)%nat ->
  0 < num_rows -> 0 < num_cols ->
  exists st',
    generate_grid num_rows num_cols square_size color_palette block_styles st
      = (st', Raise (match l with [] => ValueError | _ => IndexError end)) /\
    st_dwg st' = st_dwg st.
Proof.
  intros Hp Hl Hr Hc.
  destruct (get_two_colors_run color_palette st l Hp) as (h' & Hrun & _).
  rewrite pick_two_small in Hrun by done.
  assert (Hcell : forall e,
    (get_two_colors color_palette st).2 = Raise e ->
    generate_grid num_rows num_cols square_size color_palette block_styles st
    = ((get_two_colors color_palette st).1, Raise e)).
  { intros e He. unfold generate_grid, for_range.
    apply for_upto_first_raises; [lia|].
    apply for_upto_first_raises; [lia|].
    unfold generate_little_block. rewrite bind_run.
    destruct (get_two_colors color_palette st) as [st1 r]. simpl in He.
    by rewrite He. }
  eexists. split.
  - apply Hcell. rewrite Hrun. by destruct l.
  - rewrite Hrun. by destruct l.
Qed.

(** *** List objects are never changed in place *)

Lemma keeps_objects_bind {A B} (m : M A) (k : A -> M B) :
  keeps_objects m -> (forall a, keeps_objects (k a)) -> keeps_objects (m ≫= k).
Proof.
  intros Hm Hk st q Hq. rewrite bind_run. specialize (Hm st q Hq).
  destruct (m st) as [st1 [a|e]]; simpl in *; [|done].
  rewrite Hk; [done|]. by rewrite Hm.
Qed.

Lemma keeps_objects_same_heap {A} (m : M A) :
  (forall st, st_heap (m st).1 = st_heap st) -> keeps_objects m.
Proof. intros H st q _. by rewrite H. Qed.

Lemma keeps_objects_for_upto n body :
  (forall i, keeps_objects (body i)) -> keeps_objects (for_upto n body).
Proof.
  intros Hb. induction n as [|n IH]; simpl.
  - by apply keeps_objects_same_heap.
  - apply keeps_objects_bind; [done|]. intros _. apply Hb.
Qed.

Lemma keeps_objects_get_two_colors p : keeps_objects (get_two_colors p).
Proof. intros st q Hq. by apply get_two_colors_frame. Qed.

Lemma keeps_objects_choice {A} (l : list A) : keeps_objects (choice l).
Proof.
  apply keeps_objects_same_heap. intros st. unfold choice.
  destruct l; [done|]. rewrite bind_run, with_rng_run. reflexivity.
Qed.

Lemma keeps_objects_randint a b : keeps_objects (randint a b).
Proof.
  apply keeps_objects_same_heap. intros st. unfold randint.
  case_bool_decide; [|done]. by rewrite bind_run, with_rng_run.
Qed.

Lemma keeps_objects_draws name f x y s fg bg :
  draws name f -> keeps_objects (f x y s fg bg).
Proof.
  intros Hf. apply keeps_objects_same_heap. intros st.
  destruct (Hf x y s fg bg st) as (st' & r & -> & Hh & _). done.
Qed.

Lemma keeps_objects_styled m name x y s fg bg :
  (forall f, (name, f) ∈ m -> draws name f) ->
  keeps_objects (lift (style_lookup m name) ≫= fun f => f x y s fg bg).
Proof.
  intros Hm st q Hq. rewrite bind_run. unfold lift.
  destruct (style_lookup m name) as [f|e] eqn:E; [|done].
  eapply keeps_objects_draws; [|done]. by apply Hm, style_lookup_elem.
Qed.

Lemma keeps_objects_generate_little_block i j s p bs :
  keeps_objects (generate_little_block i j s p bs).
Proof.
  unfold generate_little_block.
  apply keeps_objects_bind; [apply keeps_objects_get_two_colors|]. intros c.
  apply keeps_objects_bind; [apply keeps_objects_choice|]. intros name.
  apply keeps_objects_styled. apply style_map_little_draws.
Qed.

(** X3.  Neither [generate_grid] nor [generate_big_block] changes a list
    object that exists when it is called, on any path: the palette is read,
    copied and never written. *)
Theorem palette_never_changed (num_rows num_cols square_size : Z)
    (color_palette : positive) (block_styles : list string) (multiplier : Z) :
  keeps_objects
    (generate_grid num_rows num_cols square_size color_palette block_styles) /\
  keeps_objects
    (generate_big_block num_rows num_cols square_size color_palette
       block_styles multiplier).
Proof.
  split.
  - unfold generate_grid, for_range.
    apply keeps_objects_for_upto. intros i.
    apply keeps_objects_for_upto. intros j.
    apply keeps_objects_generate_little_block.
  - unfold generate_big_block.
    apply keeps_objects_bind; [apply keeps_objects_get_two_colors|]. intros c.
    apply keeps_objects_bind; [apply keeps_objects_randint|]. intros kx.
    apply keeps_objects_bind; [apply keeps_objects_randint|]. intros ky.
    apply keeps_objects_bind; [apply keeps_objects_choice|]. intros name.
    apply keeps_objects_styled. intros f Hf.
    by apply style_map_little_draws, style_map_big_sub.
Qed.


(** *** The background gradient *)

Lemma create_background_colors_run p st l :
  st_heap st !! p = Some l ->
  create_background_colors p st = (st, background_of l).
Proof.
  intros Hp. unfold create_background_colors, background_of.
  rewrite bind_run, (list_getitem_run p st l 0 Hp).
  destruct (getitem l 0) as [c0|e]; [|reflexivity].
  change (Ok c0 ≫= ?k) with (k c0). cbv beta.
  rewrite bind_run, (list_getitem_run p st l 1 Hp).
  destruct (getitem l 1) as [c1|e]; [|reflexivity].
  change (Ok c1 ≫= ?k) with (k c1). cbv beta.
  rewrite bind_run. unfold lift at 1.
  destruct (hex_to_rgb (lstrip_hash c0)) as [rgb1|e]; [|reflexivity].
  change (Ok rgb1 ≫= ?k) with (k rgb1). cbv beta.
  rewrite bind_run. unfold lift at 1.
  destruct (hex_to_rgb (lstrip_hash c1)) as [rgb2|e]; [|reflexivity].
  change (Ok rgb2 ≫= ?k) with (k rgb2). cbv beta.
  destruct (mix rgb1 rgb2) as [[r g] b]. reflexivity.
Qed.

Lemma int16_raises s e : int16 s = Raise e -> e = ValueError.
Proof.
  unfold int16.
  destruct (match reverse _ with "-"%char :: l' => _ | _ => _ end) as [neg l].
  destruct (match l with "0"%char :: _ => _ | _ => _ end); [done|].
  by intros [= <-].
Qed.

Lemma hex_to_rgb_raises s e : hex_to_rgb s = Raise e -> e = ValueError.
Proof.
  unfold hex_to_rgb.
  destruct (int16 (slice2 s 0)) as [r|e0] eqn:E0;
    [|intros [= <-]; by eapply int16_raises].
  destruct (int16 (slice2 s 2)) as [g|e1] eqn:E1;
    [|intros [= <-]; by eapply int16_raises].
  destruct (int16 (slice2 s 4)) as [b|e2] eqn:E2;
    [|intros [= <-]; by eapply int16_raises].
  done.
Qed.

Lemma getitem_0 {A} (x : A) l : getitem (x :: l) 0 = Ok x.
Proof.
  destruct (getitem_in_range (x :: l) 0) as (y & Hy & Hg & _);
    [simpl; lia|].
  rewrite Hg. simpl in Hy. congruence.
Qed.

Lemma getitem_1 {A} (x y : A) l : getitem (x :: y :: l) 1 = Ok y.
Proof.
  destruct (getitem_in_range (x :: y :: l) 1) as (z & Hz & Hg & _);
    [simpl; lia|].
  rewrite Hg. simpl in Hz. congruence.
Qed.

Lemma background_of_pair c0 c1 rest :
  background_of (c0 :: c1 :: rest) =
  (rgb1 ← hex_to_rgb (lstrip_hash c0) ;
   rgb2 ← hex_to_rgb (lstrip_hash c1) ;
   let '(r, g, b) := mix rgb1 rgb2 in hls_stops r g b).
Proof. unfold background_of. rewrite getitem_0, getitem_1. reflexivity. Qed.

Lemma background_of_swap c0 c1 rest1 rest2 :
  background_of (c0 :: c1 :: rest1) = background_of (c1 :: c0 :: rest2).
Proof.
  rewrite !background_of_pair.
  destruct (hex_to_rgb (lstrip_hash c0)) as [[[r1 g1] b1]|e0] eqn:E0,
           (hex_to_rgb (lstrip_hash c1)) as [[[r2 g2] b2]|e1] eqn:E1;
    simpl.
  - by rewrite (Z.add_comm r1), (Z.add_comm g1), (Z.add_comm b1).
  - reflexivity.
  - reflexivity.
  - by rewrite (hex_to_rgb_raises _ _ E0), (hex_to_rgb_raises _ _ E1).
Qed.

(** X4.  The gradient [create_background_colors] returns depends on the
    first two colours of the palette only, and not on their order. *)
Theorem create_background_colors_order (p1 p2 : positive) (st1 st2 : state)
    (c0 c1 : string) (rest1 rest2 : list string) :
  st_heap st1 !! p1 = Some (c0 :: c1 :: rest1) ->
  st_heap st2 !! p2 = Some (c1 :: c0 :: rest2) ->
  (create_background_colors p1 st1).2 = (create_background_colors p2 st2).2.
Proof.
  intros H1 H2.
  rewrite (create_background_colors_run p1 st1 _ H1),
          (create_background_colors_run p2 st2 _ H2).
  apply background_of_swap.
Qed.

(** X5.  [create_background_colors] leaves the state alone (it draws no
    random number and adds nothing to the drawing); on a palette of fewer
    than two colours it raises [IndexError], and when one of the first two
    colours does not parse as three hexadecimal channels it raises
    [ValueError]. *)
Theorem create_background_colors_errors (p : positive) (st : state)
    (l : list string) :
  st_heap st !! p = Some l ->
  (create_background_colors p st).1 = st /\
  ((length l < 2)%nat ->
     (create_background_colors p st).2 = Raise IndexError) /\
  (forall c0 c1 rest e, l = c0 :: c1 :: rest ->
     hex_to_rgb (lstrip_hash c0) = Raise e \/
     hex_to_rgb (lstrip_hash c1) = Raise e ->
     (create_background_colors p st).2 = Raise ValueError).
Proof.
  intros Hp. rewrite (create_background_colors_run p st l Hp).
  split; [done|]. split.
  - intros Hl. destruct l as [|c0 [|c1 l]]; [done|done|simpl in Hl; lia].
  - intros c0 c1 rest e -> He. cbn [snd]. rewrite background_of_pair.
    destruct (hex_to_rgb (lstrip_hash c0)) as [rgb1|e0] eqn:E0.
    + destruct He as [He|He]; [done|]. rewrite He. simpl.
      by rewrite (hex_to_rgb_raises _ _ He).
    + simpl. by rewrite (hex_to_rgb_raises _ _ E0).
Qed.


(** *** Colours sampled from a region *)

Lemma sample_image_region_run img x y w h k px cs hs :
  pixels_of_region img x y w h = Ok px ->
  kmeans_centers px k = Ok cs ->
  hex_colors_of cs = Ok hs ->
  sample_image_region img x y w h k =
  (let sorted_colors := (sorted (zip (brightness <$> cs) hs)).*2 in
   fg ← getitem sorted_colors 0 ;
   bg ← getitem sorted_colors (-1) ;
   mret (Colors fg bg)) /\
  (sorted (zip (brightness <$> cs) hs)).*2 ≡ₚ hs.
Proof.
  intros Hpx Hk Hhs. split.
  - unfold sample_image_region. rewrite Hpx.
    change (Ok px ≫= ?f) with (f px). cbv beta. rewrite Hk.
    change (Ok cs ≫= ?f) with (f cs). cbv beta. rewrite Hhs.
    reflexivity.
  - rewrite sorted_perm. rewrite snd_zip; [done|].
    rewrite length_fmap. apply hex_colors_of_length in Hhs. lia.
Qed.

(** X7.  For any number of clusters, [sample_image_region] returns two of
    the hex colours of the cluster centres; with no centre at all it raises
    [IndexError]. *)
Theorem sample_image_region_members (img : image) (x y width height k : Z)
    (px : pixels) (cs : list centroid) (hs : list string) :
  pixels_of_region img x y width height = Ok px ->
  kmeans_centers px k = Ok cs ->
  hex_colors_of cs = Ok hs ->
  match cs with
  | [] => sample_image_region img x y width height k = Raise IndexError
  | _ =>
      exists fg bg,
        sample_image_region img x y width height k = Ok (Colors fg bg) /\
        fg ∈ hs /\ bg ∈ hs
  end.
Proof.
  intros Hpx Hk Hhs.
  destruct (sample_image_region_run _ _ _ _ _ _ _ _ _ Hpx Hk Hhs) as [Hrun Hperm].
  rewrite Hrun. cbv zeta.
  destruct cs as [|c cs].
  - simpl in Hhs. injection Hhs as <-. reflexivity.
  - destruct (getitem_first_last (sorted (zip (brightness <$> c :: cs) hs)).*2)
      as (fg & bg & Hfg & Hbg & Hin1 & Hin2).
    { intros Hnil. rewrite Hnil in Hperm. apply Permutation_nil_l in Hperm.
      apply hex_colors_of_length in Hhs. subst hs. done. }
    exists fg, bg. rewrite Hfg, Hbg. split; [reflexivity|].
    by rewrite <- !Hperm.
Qed.

(** X8.  When every cluster centre of the region has the same hex colour
    (a uniform region), [sample_image_region] returns that colour as
    foreground and as background. *)
Theorem sample_image_region_uniform (img : image) (x y width height k : Z)
    (px : pixels) (c : centroid) (cs : list centroid) (h : string) :
  pixels_of_region img x y width height = Ok px ->
  kmeans_centers px k = Ok (c :: cs) ->
  Forall (fun c' => centroid_hex c' = Ok h) (c :: cs) ->
  sample_image_region img x y width height k = Ok (Colors h h).
Proof.
  intros Hpx Hk Hall.
  pose proof (hex_colors_of_all _ _ Hall) as Hhs.
  destruct (sample_image_region_run _ _ _ _ _ _ _ _ _ Hpx Hk Hhs) as [Hrun Hperm].
  rewrite Hrun. cbv zeta.
  destruct (getitem_first_last (sorted (zip (brightness <$> c :: cs)
              (replicate (length (c :: cs)) h))).*2)
    as (fg & bg & Hfg & Hbg & Hin1 & Hin2).
  { intros Hnil. rewrite Hnil in Hperm. by apply Permutation_nil_l in Hperm. }
  rewrite Hfg, Hbg. rewrite Hperm in Hin1, Hin2.
  apply elem_of_replicate in Hin1 as [-> _].
  apply elem_of_replicate in Hin2 as [-> _]. reflexivity.
Qed.

(** *** The cross on an empty square *)



(** *** The palette of the catalogue *)

Lemma default_to_randint_run o a b st :
  a <= b ->
  exists v g,
    default_to o (randint a b) st = (State g (st_heap st) (st_dwg st), Ok v) /\
    match o with
    | Some r => v = r /\ g = st_rng st
    | None => a <= v <= b
    end.
Proof.
  intros Hab. destruct o as [r|]; simpl.
  - exists r, (st_rng st). by destruct st.
  - rewrite randint_run by done.
    pose proof (randbelow_range (b + 1 - a) (st_rng st) ltac:(lia)).
    eexists _, _. split; [reflexivity|]. lia.
Qed.

Lemma stored_palette_run a e st palettes :
  e_palettes e = Ok palettes ->
  stored_palette a e st =
  match a_palette_index a with
  | Some i =>
      match getitem palettes i with
      | Ok l => alloc l st
      | Raise e => (st, Raise e)
      end
  | None =>
      (randint 0 (Z.of_nat (length palettes) - 1) ≫= fun idx =>
       lift (getitem palettes idx) ≫= alloc) st
  end.
Proof.
  intros He. unfold stored_palette. rewrite He.
  destruct (a_palette_index a) as [i|]; [|reflexivity].
  cbn [default_to]. rewrite bind_run. unfold lift at 1.
  rewrite bind_run. change ((mret i : M Z) st) with (st, Ok i).
  cbv beta iota. rewrite bind_run. unfold lift at 1.
  by destruct (getitem palettes i).
Qed.

(** X10.  The palette of the catalogue: a given index [i] with
    [-n <= i < n] selects entry [i mod n] (a negative index counts from the
    end) without a draw, any other index raises [IndexError]; with no index
    an empty catalogue raises [ValueError], and otherwise the entry at a
    draw of [_randbelow n] is selected. *)
Theorem stored_palette_selects (a : args) (e : env) (st : state)
    (palettes : list (list string)) :
  e_palettes e = Ok palettes ->
  let n := Z.of_nat (length palettes) in
  let p := fresh (dom (st_heap st)) in
  match a_palette_index a with
  | Some i =>
      if decide (- n <= i < n) then
        exists l,
          palettes !! Z.to_nat (i mod n) = Some l /\
          stored_palette a e st =
          (State (st_rng st) (<[p := l]> (st_heap st)) (st_dwg st), Ok p)
      else stored_palette a e st = (st, Raise IndexError)
  | None =>
      if decide (n = 0) then stored_palette a e st = (st, Raise ValueError)
      else
        exists l,
          palettes !! Z.to_nat (randbelow n (st_rng st)).1 = Some l /\
          stored_palette a e st =
          (State (randbelow n (st_rng st)).2 (<[p := l]> (st_heap st))
             (st_dwg st), Ok p)
  end.
Proof.
  intros He n p. rewrite (stored_palette_run a e st palettes He).
  destruct (a_palette_index a) as [i|].
  - unfold getitem, py_index. fold n.
    destruct (decide (- n <= i < n)) as [Hi|Hi].
    + destruct (decide (0 <= i)) as [Hpos|Hneg].
      * rewrite bool_decide_eq_true_2 by lia.
        rewrite Z.mod_small by lia.
        destruct (palettes !! Z.to_nat i) as [l|] eqn:Hl.
        -- exists l. split; [done|]. reflexivity.
        -- apply lookup_ge_None in Hl. unfold n in Hi. lia.
      * rewrite bool_decide_eq_false_2 by lia.
        rewrite bool_decide_eq_true_2 by lia.
        replace (i mod n) with (n + i).
        2:{ apply Z.mod_unique_pos with (q := -1); lia. }
        destruct (palettes !! Z.to_nat (n + i)) as [l|] eqn:Hl.
        -- exists l. split; [done|]. reflexivity.
        -- apply lookup_ge_None in Hl. unfold n in Hi, Hneg. lia.
    + rewrite !bool_decide_eq_false_2 by lia. reflexivity.
  - fold n. destruct (decide (n = 0)) as [Hn|Hn].
    + rewrite bind_run, randint_empty by lia. reflexivity.
    + rewrite bind_run, randint_run by lia.
      replace (n - 1 + 1 - 0) with n by lia. rewrite Z.add_0_l.
      pose proof (randbelow_range n (st_rng st) ltac:(unfold n in *; lia)) as Hk.
      destruct (getitem_in_range palettes _ Hk) as (l & Hl & Hg & _).
      exists l. split; [done|].
      rewrite bind_run. unfold lift at 1. rewrite Hg. reflexivity.
Qed.


(** *** A whole run *)

Lemma open_document_run R C s p st l stops :
  st_heap st !! p = Some l -> background_of l = Ok stops ->
  open_document R C s p st =
  (State (st_rng st) (st_heap st)
     (Drawing (pretty (R * s) +:+ "px", pretty (C * s) +:+ "px")
        [StyleDef "svg * { shape-rendering: crispEdges; }";
         RadialGradientDef "background_gradient" stops.1 stops.2]
        [BackgroundRect (R * s) (C * s) "url(#background_gradient)"]),
   Ok tt).
Proof.
  intros Hp Hbg. unfold open_document. cbv zeta.
  rewrite bind_run. unfold new_drawing at 1. cbv beta iota.
  rewrite bind_run. unfold defs_add at 1. cbv beta iota zeta.
  rewrite bind_run.
  rewrite (create_background_colors_run p _ l) by exact Hp.
  rewrite Hbg. rewrite bind_run. reflexivity.
Qed.

Lemma generate_big_block_placed rows cols s p bs m st l :
  st_heap st !! p = Some l -> (2 <= length l)%nat ->
  0 < s -> m = 2 \/ m = 3 -> m <= rows -> m <= cols ->
  exists st' g,
    generate_big_block rows cols s p bs m st = (st', Ok tt) /\
    dwg_size (st_dwg st') = dwg_size (st_dwg st) /\
    dwg_elements (st_dwg st') = dwg_elements (st_dwg st) ++ [BlockGroup g] /\
    focal_group rows cols s g.
Proof.
  intros Hp Hl Hs Hm Hr Hc.
  destruct (generate_big_block_run rows cols s p bs m st l Hp)
    as (h' & _ & Hrun).
  cbv zeta in Hrun.
  destruct (pick_two_large l (st_rng st) Hl) as (bg & fg & _ & _ & _ & _ & Hpt).
  rewrite Hpt in Hrun. cbn [fst snd] in Hrun.
  destruct (decide (rows < m)) as [Hx|Hx]; [lia|].
  destruct (decide (cols < m)) as [Hy|Hy]; [lia|].
  destruct Hrun as (name & f & g' & Hname & Hf & Hkx & Hky & Hrun).
  apply style_map_big_sub in Hf as [Hf Hnd].
  apply style_map_little_draws in Hf.
  match type of Hrun with
  | _ = f ?x ?y ?sz ?a ?b ?st0 =>
      destruct (Hf x y sz a b st0) as (st' & r & Hdraw & _ & Hsz & Hres);
      idtac
  end.
  rewrite Hdraw in Hrun.
  destruct r as [[]|e].
  - destruct Hres as (sh & Hsh & Hels). simpl in Hels, Hsz.
    exists st', (Group sh
      ((randbelow (rows - m + 1) (randbelow (Z.of_nat (length l) - 1)
          (randbelow (Z.of_nat (length l)) (st_rng st)).2).2).1 * s)
      ((randbelow (cols - m + 1) (randbelow (rows - m + 1)
          (randbelow (Z.of_nat (length l) - 1)
             (randbelow (Z.of_nat (length l)) (st_rng st)).2).2).2).1 * s)
      (m * s) fg bg).
    split; [exact Hrun|]. split; [exact Hsz|].
    split; [exact Hels|].
    exists m. simpl. rewrite Hsh. repeat split; try done; nia.
  - destruct Hres as (_ & Hz & _). nia.
Qed.


Lemma seed_from_run a st :
  exists g, seed_from a st = (State g (st_heap st) (st_dwg st), Ok tt).
Proof.
  unfold seed_from. destruct (a_seed a) as [s|].
  - eexists. reflexivity.
  - exists (st_rng st). by destruct st.
Qed.

Lemma stored_palette_ok a e st palettes :
  e_palettes e = Ok palettes ->
  match a_palette_index a with
  | Some i => - Z.of_nat (length palettes) <= i < Z.of_nat (length palettes)
  | None => palettes <> []
  end ->
  exists l g,
    l ∈ palettes /\
    stored_palette a e st =
    (State g (<[fresh (dom (st_heap st)) := l]> (st_heap st)) (st_dwg st),
     Ok (fresh (dom (st_heap st)))).
Proof.
  intros He Hi. rewrite (stored_palette_run a e st palettes He).
  destruct (a_palette_index a) as [i|].
  - unfold getitem, py_index.
    destruct (decide (0 <= i)) as [Hpos|Hneg].
    + rewrite bool_decide_eq_true_2 by lia.
      destruct (palettes !! Z.to_nat i) as [l|] eqn:Hl.
      * exists l, (st_rng st). split; [by eapply list_elem_of_lookup_2|done].
      * apply lookup_ge_None in Hl. lia.
    + rewrite bool_decide_eq_false_2 by lia.
      rewrite bool_decide_eq_true_2 by lia.
      destruct (palettes !! _) as [l|] eqn:Hl.
      * exists l, (st_rng st). split; [by eapply list_elem_of_lookup_2|done].
      * apply lookup_ge_None in Hl. lia.
  - assert (Hn : 0 < Z.of_nat (length palettes)).
    { destruct palettes; [done|simpl; lia]. }
    rewrite bind_run, randint_run by lia.
    replace (Z.of_nat (length palettes) - 1 + 1 - 0)
      with (Z.of_nat (length palettes)) by lia.
    rewrite Z.add_0_l.
    pose proof (randbelow_range _ (st_rng st) Hn) as Hk.
    destruct (getitem_in_range palettes _ Hk) as (l & Hl & Hg & _).
    exists l. eexists. split; [by eapply list_elem_of_lookup_2|].
    rewrite bind_run. unfold lift at 1. rewrite Hg. reflexivity.
Qed.

Lemma add_big_block_run a rows cols p st l :
  st_heap st !! p = Some l -> (2 <= length l)%nat ->
  0 < a_square_size a -> 3 <= rows -> 3 <= cols ->
  match a_big_block_size a with
  | Some m => m = 2 \/ m = 3
  | None => True
  end ->
  exists st' g,
    add_big_block a rows cols p st = (st', Ok tt) /\
    dwg_size (st_dwg st') = dwg_size (st_dwg st) /\
    dwg_elements (st_dwg st') = dwg_elements (st_dwg st) ++ [BlockGroup g] /\
    focal_group rows cols (a_square_size a) g.
Proof.
  intros Hp Hl Hs Hr Hc Hm. unfold add_big_block.
  destruct (a_big_block_size a) as [m|].
  - rewrite bind_run. change ((mret m : M Z) st) with (st, Ok m).
    cbv beta iota.
    apply (generate_big_block_placed rows cols _ p _ m st l);
      [done|done|done|done|destruct Hm; lia|destruct Hm; lia].
  - destruct (choice_run [2; 3] st) as (m & Hm2 & Hch); [done|].
    rewrite bind_run, Hch.
    assert (Hm3 : m = 2 \/ m = 3).
    { apply list_elem_of_lookup_2 in Hm2.
      rewrite !elem_of_cons, elem_of_nil in Hm2. tauto. }
    destruct (generate_big_block_placed rows cols (a_square_size a) p
                (block_styles_of a) m
                (State (randbelow (Z.of_nat (length [2; 3])) (st_rng st)).2
                   (st_heap st) (st_dwg st)) l)
      as (st' & g & H); [done|done|done|done|destruct Hm3; lia|destruct Hm3; lia|].
    exists st', g. exact H.
Qed.




(** *** Composition mode *)

Lemma composition_cell_run img i j s bs st c :
  sample_image_region img (i * s) (j * s) s s 2 = Ok c -> s <> 0 ->
  exists st' g,
    (colors ← lift (sample_image_region img (i * s) (j * s) s s 2) ;
     style_name ← choice (little_available_styles bs) ;
     style_func ← lift (style_lookup style_map_little style_name) ;
     style_func (i * s) (j * s) s (foreground colors) (background colors)) st
    = (st', Ok tt) /\
    dwg_elements (st_dwg st') = dwg_elements (st_dwg st) ++ [BlockGroup g] /\
    sampled_group img s bs i j g /\
    st_heap st' = st_heap st.
Proof.
  intros Hc Hs. rewrite bind_run. unfold lift at 1. rewrite Hc.
  match goal with
  | |- context [(choice ?l0 ≫= _) ?st0] =>
      destruct (choice_run l0 st0) as (name & Hname & Hch);
        [apply little_available_styles_nonempty|];
      rewrite bind_run, Hch; clear Hch
  end.
  apply list_elem_of_lookup_2 in Hname.
  destruct (style_lookup_key _ _ (little_available_styles_keys _ _ Hname)) as [f Hf].
  rewrite bind_run. unfold lift at 1. rewrite Hf.
  pose proof (style_map_little_draws name f (style_lookup_elem _ _ _ Hf)) as Hdraw.
  match goal with
  | |- context [f ?x ?y ?sz ?a ?b ?st0] =>
      destruct (Hdraw x y sz a b st0) as (st' & r & Hd & Hheap & _ & Hres)
  end.
  rewrite Hd. destruct r as [[]|e].
  - destruct Hres as (sh & Hsh & Hels). simpl in Hels, Hheap.
    eexists st', _. split; [reflexivity|]. split; [exact Hels|].
    split; [|exact Hheap].
    unfold sampled_group. simpl. rewrite Hsh, Hc. by destruct c.
  - destruct Hres as (_ & Hz & _). done.
Qed.

Lemma generate_composition_grid_run e num_rows num_cols square_size
    block_styles st img0 img :
  e_image e = Ok img0 ->
  image_resize img0 (num_rows * square_size) (num_cols * square_size) = Ok img ->
  square_size <> 0 ->
  (forall i j, 0 <= i < num_rows -> 0 <= j < num_cols ->
     exists c, sample_image_region img (i * square_size) (j * square_size)
                 square_size square_size 2 = Ok c) ->
  exists st' rows,
    generate_composition_grid e num_rows num_cols square_size block_styles st
      = (st', Ok tt) /\
    dwg_elements (st_dwg st') =
      dwg_elements (st_dwg st) ++ (BlockGroup <$> concat rows) /\
    Forall2 (fun i row =>
               Forall2 (sampled_group img square_size block_styles i)
                 (py_range num_cols) row)
      (py_range num_rows) rows /\
    st_heap st' = st_heap st.
Proof.
  intros He Hre Hs Hsample. unfold generate_composition_grid.
  rewrite bind_run. unfold lift at 1. rewrite He.
  rewrite bind_run. unfold lift at 1. rewrite Hre.
  unfold for_range.
  match goal with
  | |- context [for_upto (Z.to_nat num_rows) ?body ?st0] =>
      destruct (for_upto_groups (Z.to_nat num_rows) body
        (fun st1 => st_heap st1 = st_heap st)
        (fun i row => Forall2 (sampled_group img square_size block_styles i)
                        (py_range num_cols) row)) with (st := st0)
        as (st' & rows & Hrun & HI & HC & Hels); [|done|]
  end.
  - intros i st0 Hi HI0. cbv beta.
    match goal with
    | |- context [for_upto (Z.to_nat num_cols) ?body st0] =>
        destruct (for_upto_groups (Z.to_nat num_cols) body
          (fun st1 => st_heap st1 = st_heap st)
          (fun j gs => exists g, gs = [g] /\
             sampled_group img square_size block_styles i j g))
          with (st := st0) as (st1 & gss & Hrun & HI1 & HC & Hels); [|done|]
    end.
    + intros j st1 Hj HI1. cbv beta zeta.
      destruct (Hsample i j ltac:(lia) ltac:(lia)) as [c Hc].
      destruct (composition_cell_run img i j square_size block_styles st1 c Hc Hs)
        as (st2 & g & Hr & He2 & Hg & Hh).
      exists st2, [g]. split; [exact Hr|]. split; [congruence|].
      split; [eauto|]. exact He2.
    + exists st1, (concat gss). repeat split; try done.
      unfold py_range. clear -HC.
      induction HC as [|j gs js gss (g & -> & Hg) _ IH]; simpl; [constructor|].
      constructor; done.
  - exists st', rows. done.
Qed.

(** X12.  [generate_composition_grid] on an image it can resize and sample
    adds one group per cell, row by row, at [(i * size, j * size)], and the
    two colours of each group are the colours sampled from the region of
    the cell: they do not depend on the random generator.  The heap is as
    it was. *)
Theorem generate_composition_grid_cells (e : env)
    (num_rows num_cols square_size : Z) (block_styles : list string)
    (st : state) (img0 img : image) :
  e_image e = Ok img0 ->
  image_resize img0 (num_rows * square_size) (num_cols * square_size) = Ok img ->
  square_size <> 0 ->
  (forall i j, 0 <= i < num_rows -> 0 <= j < num_cols ->
     exists c, sample_image_region img (i * square_size) (j * square_size)
                 square_size square_size 2 = Ok c) ->
  exists st' rows,
    generate_composition_grid e num_rows num_cols square_size block_styles st
      = (st', Ok tt) /\
    dwg_elements (st_dwg st') =
      dwg_elements (st_dwg st) ++ (BlockGroup <$> concat rows) /\
    Forall2 (fun i row =>
               Forall2 (sampled_group img square_size block_styles i)
                 (py_range num_cols) row)
      (py_range num_rows) rows /\
    st_heap st' = st_heap st.
Proof. apply generate_composition_grid_run. Qed.

(** *** The two programs compared *)

(** X13.  Without an image, and with the numbers of rows and columns
    given, [SVGArtGridV2.py] runs as [SVG_ArtGrid.py] does: same final state,
    same document. *)
Theorem main_v2_without_image (a : args) (e : env) (st : state) (r c : Z) :
  a_image a = None -> a_rows a = Some r -> a_cols a = Some c ->
  main_v2 a e st = main_v1 a e st.
Proof.
  intros Hi Hr Hc. unfold main_v2, main_v1, image_mode.
  rewrite Hi, Hr, Hc. rewrite andb_true_r. reflexivity.
Qed.

Lemma composition_not_palette a :
  image_mode a "composition" = true -> image_mode a "palette" = false.
Proof.
  unfold image_mode. destruct (a_image a); [|done].
  intros Hm. apply andb_true_iff in Hm as [_ Hm].
  apply bool_decide_eq_true_1 in Hm. rewrite Hm.
  rewrite andb_false_iff. right. by apply bool_decide_eq_false_2.
Qed.

Lemma palette_not_composition a :
  image_mode a "palette" = true -> image_mode a "composition" = false.
Proof.
  unfold image_mode. destruct (a_image a); [|done].
  intros Hm. apply andb_true_iff in Hm as [_ Hm].
  apply bool_decide_eq_true_1 in Hm. rewrite Hm.
  rewrite andb_false_iff. right. by apply bool_decide_eq_false_2.
Qed.

(** X14.  In palette mode [SVGArtGridV2.py] never reads the catalogue of
    stored palettes.  In every other mode, composition mode included, it
    loads it: when loading fails the run stops with that exception before a
    drawing is created. *)
Theorem main_v2_catalogue_by_mode (a : args)
    (palettes1 palettes2 : res (list (list string))) (img : res image)
    (st : state) (err : exn) :
  (image_mode a "palette" = true ->
   main_v2 a (Env palettes1 img) st = main_v2 a (Env palettes2 img) st) /\
  (image_mode a "palette" = false ->
   exists st',
     main_v2 a (Env (Raise err) img) st = (st', Raise err) /\
     st_dwg st' = st_dwg st).
Proof.
  split.
  - intros Hm. unfold main_v2.
    rewrite Hm, (palette_not_composition a Hm). reflexivity.
  - intros Hm. unfold main_v2. rewrite Hm.
    destruct (seed_from_run a st) as (g0 & Hseed).
    rewrite bind_run, Hseed.
    destruct (default_to_randint_run (a_rows a) 8 16
                (State g0 (st_heap st) (st_dwg st)) ltac:(lia))
      as (R & g1 & HR & _).
    rewrite bind_run, HR. cbn [st_heap st_dwg] in *.
    destruct (default_to_randint_run (a_cols a) 8 16
                (State g1 (st_heap st) (st_dwg st)) ltac:(lia))
      as (C & g2 & HC & _).
    rewrite bind_run, HC. cbn [st_heap st_dwg] in *.
    eexists. split; [reflexivity|]. reflexivity.
Qed.

Lemma open_document_small R C s p st l :
  st_heap st !! p = Some l -> (length l < 2)%nat ->
  open_document R C s p st =
  (State (st_rng st) (st_heap st)
     (Drawing (pretty (R * s) +:+ "px", pretty (C * s) +:+ "px")
        [StyleDef "svg * { shape-rendering: crispEdges; }"] []),
   Raise IndexError).
Proof.
  intros Hp Hl. unfold open_document. cbv zeta.
  rewrite bind_run. unfold new_drawing at 1. cbv beta iota.
  rewrite bind_run. unfold defs_add at 1. cbv beta iota zeta.
  rewrite bind_run.
  rewrite (create_background_colors_run p _ l) by exact Hp.
  by destruct l as [|c0 [|c1 l]]; [..|simpl in Hl; lia].
Qed.

(** X15.  When the catalogue holds only palettes of fewer than two
    colours, a run of [SVG_ArtGrid.py] stops with the [IndexError] of
    [create_background_colors]: the drawing holds its style sheet and no
    element. *)
Theorem main_v1_small_palette (a : args) (e : env) (st : state)
    (palettes : list (list string)) :
  e_palettes e = Ok palettes ->
  Forall (fun l => (length l < 2)%nat) palettes ->
  match a_palette_index a with
  | Some i => - Z.of_nat (length palettes) <= i < Z.of_nat (length palettes)
  | None => palettes <> []
  end ->
  exists st',
    main_v1 a e st = (st', Raise IndexError) /\
    dwg_elements (st_dwg st') = [] /\
    dwg_defs (st_dwg st') = [StyleDef "svg * { shape-rendering: crispEdges; }"].
Proof.
  intros He Hall Hidx. unfold main_v1.
  destruct (seed_from_run a st) as (g0 & Hseed).
  rewrite bind_run, Hseed.
  destruct (default_to_randint_run (a_rows a) 4 8
              (State g0 (st_heap st) (st_dwg st)) ltac:(lia))
    as (R & g1 & HR & _).
  rewrite bind_run, HR. cbn [st_heap st_dwg] in *.
  destruct (default_to_randint_run (a_cols a) 4 8
              (State g1 (st_heap st) (st_dwg st)) ltac:(lia))
    as (C & g2 & HC & _).
  rewrite bind_run, HC. cbn [st_heap st_dwg] in *.
  destruct (stored_palette_ok a e (State g2 (st_heap st) (st_dwg st))
              palettes He Hidx) as (l & g3 & Hl & Hpal).
  rewrite bind_run, Hpal. cbn [st_heap st_dwg] in *. cbv zeta.
  rewrite Forall_forall in Hall.
  rewrite bind_run.
  rewrite (open_document_small R C (a_square_size a) _ _ l);
    [|apply lookup_insert_eq|by apply Hall].
  eexists. split; [reflexivity|]. done.
Qed.


(** *** The palette extracted from an image *)

Lemma centroid_hex_byte c :
  byte_centroid c ->
  exists h rgb, centroid_hex c = Ok h /\ hex_to_rgb (lstrip_hash h) = Ok rgb.
Proof.
  destruct c as [[c0 c1] c2].
  intros (r & g & b & Hr & Hg & Hb & Hrr & Hgr & Hbr). simpl in Hr, Hg, Hb.
  unfold centroid_hex. rewrite Hr, Hg, Hb.
  eexists _, (r, g, b). split; [reflexivity|].
  by apply hex_colour_bytes.
Qed.

(** X17.  [extract_palette_from_image] returns one colour per cluster
    centre, and when the channels of the centres truncate to bytes every
    colour it returns can be parsed by [create_background_colors]. *)
Theorem extract_palette_from_image_colours (img : image) (color_count : Z)
    (px : pixels) (cs : list centroid) :
  pixels_of_image img = Ok px ->
  kmeans_centers px color_count = Ok cs ->
  Forall byte_centroid cs ->
  exists hs,
    extract_palette_from_image img color_count = Ok hs /\
    length hs = length cs /\
    Forall (fun h => exists rgb, hex_to_rgb (lstrip_hash h) = Ok rgb) hs.
Proof.
  intros Hpx Hk Hall. unfold extract_palette_from_image.
  rewrite Hpx. change (Ok px ≫= ?f) with (f px). cbv beta.
  rewrite Hk. change (Ok cs ≫= ?f) with (f cs). cbv beta.
  clear Hk. induction Hall as [|c cs Hc _ (hs & Hhs & Hlen & Hparse)].
  - exists []. by repeat split.
  - destruct (centroid_hex_byte c Hc) as (h & rgb & Hh & Hrgb).
    exists (h :: hs). cbn [hex_colors_of]. rewrite Hh, Hhs.
    split; [reflexivity|]. split; [simpl; lia|].
    constructor; eauto.
Qed.

End Coverage.

Lemma grid_length {A B C} (P : A -> B -> C -> Prop) (idx : list A)
    (js : list B) (rows : list (list C)) :
  Forall2 (fun i row => Forall2 (P i) js row) idx rows ->
  length (concat rows) = (length idx * length js)%nat.
Proof.
  induction 1 as [|i row idx rows Hrow _ IH]; simpl; [done|].
  rewrite length_app, IH. apply Forall2_length in Hrow. lia.
Qed.

(** ** Concrete runs of the added properties *)

Definition mono_palette : list string := ["#ff0000"]%string.


Lemma generate_grid_small_palette_witness :
  exists st',
    @generate_grid tape_random 2 3 10 1%positive all_styles
      (tape_state [] mono_palette) = (st', Raise IndexError) /\
    st_dwg st' = empty_drawing.
Proof.
  exact (@generate_grid_small_palette tape_random 2 3 10 1%positive all_styles
           (tape_state [] mono_palette) mono_palette eq_refl
           ltac:(simpl; lia) ltac:(lia) ltac:(lia)).
Defined.

Lemma create_background_colors_order_witness :
  (@create_background_colors tape_random toy_libraries 1%positive
     (tape_state [] ["#ff0000"; "#00ff00"; "#0000ff"]%string)).2
  = (@create_background_colors tape_random toy_libraries 1%positive
       (tape_state [] ["#00ff00"; "#ff0000"]%string)).2.
Proof.
  exact (@create_background_colors_order tape_random toy_libraries
           1%positive 1%positive
           (tape_state [] ["#ff0000"; "#00ff00"; "#0000ff"]%string)
           (tape_state [] ["#00ff00"; "#ff0000"]%string)
           "#ff0000"%string "#00ff00"%string ["#0000ff"%string] []
           eq_refl eq_refl).
Defined.

Lemma create_background_colors_errors_witness :
  (@create_background_colors tape_random toy_libraries 1%positive
     (tape_state [] mono_palette)).2 = Raise IndexError.
Proof.
  destruct (@create_background_colors_errors tape_random toy_libraries
              1%positive (tape_state [] mono_palette) mono_palette eq_refl)
    as (_ & Hshort & _).
  apply Hshort. simpl. lia.
Defined.

Lemma hex_colour_round_trip_witness :
  hex_to_rgb (lstrip_hash "#ff8000") = Ok (255, 128, 0).
Proof.
  exact (hex_colour_round_trip 255 128 0 ltac:(lia) ltac:(lia) ltac:(lia)).
Defined.

Lemma sample_image_region_members_witness :
  exists fg bg,
    @sample_image_region toy_libraries [light_centroid; dark_centroid]
      0 0 10 10 2 = Ok (Colors fg bg) /\
    fg ∈ ["#c86432"; "#0a141e"]%string /\ bg ∈ ["#c86432"; "#0a141e"]%string.
Proof.
  exact (@sample_image_region_members toy_libraries
           [light_centroid; dark_centroid] 0 0 10 10 2
           [light_centroid; dark_centroid] [light_centroid; dark_centroid]
           ["#c86432"; "#0a141e"]%string eq_refl eq_refl eq_refl).
Defined.

Lemma sample_image_region_uniform_witness :
  @sample_image_region toy_libraries [dark_centroid; dark_centroid]
    0 0 10 10 2 = Ok (Colors "#0a141e" "#0a141e").
Proof.
  apply (@sample_image_region_uniform toy_libraries
           [dark_centroid; dark_centroid] 0 0 10 10 2
           [dark_centroid; dark_centroid] dark_centroid [dark_centroid]
           "#0a141e"%string eq_refl eq_refl).
  repeat constructor.
Defined.

Definition args_last_palette : args :=
  Args (Some 3) (Some 4) 10 (Some 7) (Some (-1)) true None None None None 5.

Definition palettes_two : list (list string) :=
  [["#ff0000"; "#00ff00"; "#0000ff"]; ["#102030"; "#405060"]]%string.

Definition env_two : @env toy_libraries :=
  @Env toy_libraries (Ok palettes_two) (Raise OSError).

Lemma stored_palette_selects_witness :
  exists l,
    palettes_two !! 1%nat = Some l /\
    (@stored_palette tape_random toy_libraries args_last_palette env_two
       (tape_state [] [])).2 = Ok 2%positive.
Proof.
  destruct (@stored_palette_selects tape_random toy_libraries
              args_last_palette env_two (tape_state [] []) palettes_two
              eq_refl) as (l & Hl & Hrun).
  exists l. split; [exact Hl|]. rewrite Hrun. reflexivity.
Defined.

Lemma usable_palettes_two : Forall (@usable_palette toy_libraries) palettes_two.
Proof.
  repeat constructor; try (simpl; lia); eexists; vm_compute; reflexivity.
Defined.


Definition two_tone : @image toy_libraries := [light_centroid; dark_centroid].

Definition env_image : @env toy_libraries :=
  @Env toy_libraries (Ok palettes_two) (Ok two_tone).

Lemma two_tone_sampled (x y w h : Z) :
  exists c, @sample_image_region toy_libraries two_tone x y w h 2 = Ok c.
Proof. eexists. vm_compute. reflexivity. Defined.

Lemma generate_composition_grid_cells_witness :
  exists st' (rows : list (list group)),
    @generate_composition_grid tape_random toy_libraries env_image 2 2 10
      all_styles (tape_state [] []) = (st', Ok tt) /\
    length (concat rows) = 4%nat.
Proof.
  destruct (@generate_composition_grid_cells tape_random toy_libraries
              env_image 2 2 10 all_styles (tape_state [] []) two_tone two_tone
              eq_refl eq_refl ltac:(lia)
              (fun i j _ _ => two_tone_sampled _ _ _ _))
    as (st' & rows & Hrun & _ & Hrows & _).
  exists st', rows. split; [exact Hrun|].
  rewrite (grid_length _ _ _ _ Hrows). reflexivity.
Defined.

Definition args_plain : args :=
  Args (Some 2) (Some 3) 10 None (Some 0) false None None None None 5.

Lemma main_v2_without_image_witness :
  @main_v2 tape_random toy_libraries args_plain env_two (tape_state [] [])
  = @main_v1 tape_random toy_libraries args_plain env_two (tape_state [] []).
Proof.
  exact (@main_v2_without_image tape_random toy_libraries args_plain env_two
           (tape_state [] []) 2 3 eq_refl eq_refl eq_refl).
Defined.

Definition env_mono : @env toy_libraries :=
  @Env toy_libraries (Ok [mono_palette]) (Raise OSError).

Lemma main_v1_small_palette_witness :
  exists st',
    @main_v1 tape_random toy_libraries args_plain env_mono (tape_state [] [])
    = (st', Raise IndexError) /\
    dwg_elements (st_dwg st') = [].
Proof.
  destruct (@main_v1_small_palette tape_random toy_libraries args_plain
              env_mono (tape_state [] []) [mono_palette] eq_refl)
    as (st' & Hrun & Hels & _).
  - repeat constructor.
  - simpl. lia.
  - exists st'. split; [exact Hrun|exact Hels].
Defined.

Definition args_composition : args :=
  Args (Some 2) (Some 2) 10 (Some 7) (Some 0) true None None
    (Some "photo.png"%string) (Some "composition"%string) 5.


Lemma byte_centroids_two_tone : Forall byte_centroid two_tone.
Proof.
  repeat constructor.
  - exists 200, 100, 50. vm_compute. repeat split; congruence.
  - exists 10, 20, 30. vm_compute. repeat split; congruence.
Defined.

Lemma extract_palette_from_image_colours_witness :
  exists hs,
    @extract_palette_from_image toy_libraries two_tone 2 = Ok hs /\
    length hs = 2%nat.
Proof.
  destruct (@extract_palette_from_image_colours toy_libraries two_tone 2
              two_tone two_tone eq_refl eq_refl byte_centroids_two_tone)
    as (hs & Hrun & Hlen & _).
  exists hs. split; [exact Hrun|exact Hlen].
Defined.
